(** * MindfulAI backend: the audio-ingestion pipeline and the text normalizer

    A shallow embedding of
      - [app/services/audio_processor.py]  (module [AudioProcessor]),
      - [app/schemas/journal.py]           (module [Schemas]),
      - [app/api/endpoints/audio.py]       (module [Endpoints]),
    together with the parts of the Python runtime they call
    (module [PyStr]: [str.split], [str.join], [str.strip], [str.lower],
    [str.endswith], [os.path.splitext]).

    Python [str] values are modelled by [string]; the case mappings and the
    whitespace class are those of Python on ASCII code points, characters
    from 128 on are caseless and are not whitespace. *)

From stdpp Require Import gmap strings list.
From Stdlib Require Import ZArith Ascii String.

Local Open Scope string_scope.

(* ===================================================================== *)
(** ** Python strings *)
(* ===================================================================== *)

Module PyStr.

(** [str.isspace] on one ASCII character: TAB, LF, VT, FF, CR, the four
    separators FS, GS, RS, US, and the space. *)
Definition isspace (c : ascii) : bool :=
  let n := nat_of_ascii c in
  ((9 <=? n)%nat && (n <=? 13)%nat) || ((28 <=? n)%nat && (n <=? 32)%nat).

Definition upper_char (c : ascii) : ascii :=
  let n := nat_of_ascii c in
  if ((97 <=? n)%nat && (n <=? 122)%nat)%bool then ascii_of_nat (n - 32) else c.

Definition lower_char (c : ascii) : ascii :=
  let n := nat_of_ascii c in
  if ((65 <=? n)%nat && (n <=? 90)%nat)%bool then ascii_of_nat (n + 32) else c.

Fixpoint upper (s : string) : string :=
  match s with
  | EmptyString => EmptyString
  | String c r => String (upper_char c) (upper r)
  end.

Fixpoint lower (s : string) : string :=
  match s with
  | EmptyString => EmptyString
  | String c r => String (lower_char c) (lower r)
  end.

(** Truth value of a [str]: the empty string is falsy. *)
Definition truthy (s : string) : bool :=
  match s with EmptyString => false | String _ _ => true end.

(** Does [s] begin with a character that is not whitespace? *)
Definition starts_word (s : string) : bool :=
  match s with EmptyString => false | String c _ => negb (isspace c) end.

(** [s.split()]: the maximal runs of non-whitespace characters, in order. *)
Fixpoint split (s : string) : list string :=
  match s with
  | EmptyString => []
  | String c r =>
      if isspace c then split r
      else if starts_word r then
        match split r with
        | w :: ws => String c w :: ws
        | [] => [String c EmptyString]
        end
      else String c EmptyString :: split r
  end.

(** [sep.join(l)] *)
Fixpoint join (sep : string) (l : list string) : string :=
  match l with
  | [] => EmptyString
  | [w] => w
  | w :: ws => w +:+ sep +:+ join sep ws
  end.

Fixpoint lstrip (s : string) : string :=
  match s with
  | EmptyString => EmptyString
  | String c r => if isspace c then lstrip r else s
  end.

Fixpoint rstrip (s : string) : string :=
  match s with
  | EmptyString => EmptyString
  | String c r =>
      match rstrip r with
      | EmptyString => if isspace c then EmptyString else String c EmptyString
      | r' => String c r'
      end
  end.

(** [s.strip()] *)
Definition strip (s : string) : string := rstrip (lstrip s).

(** [s[i:]] for [0 <= i] *)
Fixpoint drop (i : nat) (s : string) : string :=
  match i, s with
  | O, _ => s
  | S _, EmptyString => EmptyString
  | S i', String _ r => drop i' r
  end.

(** [s[:i]] for [0 <= i] *)
Fixpoint take (i : nat) (s : string) : string :=
  match i, s with
  | O, _ => EmptyString
  | S _, EmptyString => EmptyString
  | S i', String c r => String c (take i' r)
  end.

(** [s.endswith(suffix)] *)
Definition endswith (s suffix : string) : bool :=
  let n := String.length s in
  let m := String.length suffix in
  (m <=? n)%nat && String.eqb (drop (n - m) s) suffix.

(** [s.endswith((x, y, ...))]: a tuple of suffixes *)
Definition endswith_any (s : string) (suffixes : list string) : bool :=
  existsb (endswith s) suffixes.

(** [s.rfind(c)] for a one-character [c]: index of the last occurrence,
    [-1] when there is none. *)
Fixpoint rfind_from (i : Z) (c : ascii) (s : string) : Z :=
  match s with
  | EmptyString => (-1)%Z
  | String d r =>
      let k := rfind_from (i + 1) c r in
      if (0 <=? k)%Z then k else if Ascii.eqb d c then i else (-1)%Z
  end.

Definition rfind (c : ascii) (s : string) : Z := rfind_from 0 c s.

(** The scan of [genericpath._splitext] over the characters from
    [filenameIndex] up to [dotIndex]: is there one that is not a dot? *)
Fixpoint has_non_dot (s : string) : bool :=
  match s with
  | EmptyString => false
  | String c r => if Ascii.eqb c "." then has_non_dot r else true
  end.

(** [os.path.splitext] of [posixpath] ([sep = '/'], no [altsep],
    [extsep = '.']): the extension starts at the last dot of the last path
    component, unless that component has only dots before it. *)
Definition splitext (p : string) : string * string :=
  let sepIndex := rfind "/" p in
  let dotIndex := rfind "." p in
  if (sepIndex <? dotIndex)%Z then
    let filenameIndex := Z.to_nat (sepIndex + 1) in
    let d := Z.to_nat dotIndex in
    if has_non_dot (take (d - filenameIndex) (drop filenameIndex p))
    then (take d p, drop d p)
    else (p, EmptyString)
  else (p, EmptyString).

End PyStr.

(* ===================================================================== *)
(** ** Values, exceptions and the world the handlers run in *)
(* ===================================================================== *)

(** Python values that appear in keyword dictionaries and local frames. *)
Inductive pyval :=
  | VNone
  | VStr (s : string)
  | VInt (z : Z)
  | VObj.

(** Exceptions: [fastapi.HTTPException] and every other [Exception]. *)
Inductive exn :=
  | HTTPException (status_code : Z) (detail : string)
  | Exception (msg : string).

(** [str(e)], as the handlers splice it into the detail of a 500 answer;
    they only ever apply it to exceptions other than [HTTPException]. *)
Definition str_of_exn (e : exn) : string :=
  match e with
  | HTTPException _ d => d
  | Exception m => m
  end.

Inductive result (A : Type) :=
  | Ok (a : A)
  | Raise (e : exn).
Arguments Ok {A} a.
Arguments Raise {A} e.

(** A decoded [pydub.AudioSegment]. *)
Record AudioSegment := {
  channels : Z;
  frame_rate : Z;
  duration_ms : Z
}.

(** The instances behind the module globals [_model] and [_processor]:
    every successful [from_pretrained] allocates a new object. *)
Record Model := { model_obj : nat; model_device_cuda : bool }.
Record Processor := { processor_obj : nat }.

(** A [JournalEntry] object of the ORM (columns as [main.py] declares
    them; timestamps are instants of the clock). *)
Record JournalEntry := {
  id : Z;
  user_id : Z;
  content : string;
  audio_path : option string;
  created_at : Z;
  updated_at : Z
}.

(** A stored row of [journal_entries]; its primary key is the key under
    which the table holds it. *)
Record journal_row := {
  r_user_id : Z;
  r_content : string;
  r_audio_path : option string;
  r_created_at : Z;
  r_updated_at : Z
}.

Definition entry_of_row (k : Z) (r : journal_row) : JournalEntry :=
  {| id := k; user_id := r_user_id r; content := r_content r;
     audio_path := r_audio_path r; created_at := r_created_at r;
     updated_at := r_updated_at r |}.

(** What the surroundings answer during one request: the model hub, the
    audio codec, the disk, the database and the random generator. *)
Record env := {
  cuda_is_available : bool;
  processor_from_pretrained_ok : bool;
  model_from_pretrained_ok : bool;
  model_to_cuda_ok : bool;
  decode : string -> option AudioSegment;   (* AudioSegment.from_file *)
  export_ok : bool;                           (* audio.export *)
  processor_call_ok : bool;                   (* processor(samples, ...) *)
  generate : string -> option string;         (* model.generate + batch_decode *)
  makedirs_ok : bool;
  open_ok : bool;                             (* open(destination, "wb") *)
  write_ok : nat -> bool;                     (* buffer.write of chunk k *)
  commit_ok : bool;                           (* db.commit *)
  uuid4 : string
}.

Record world := {
  fs : gset string;                 (* paths that exist on storage *)
  db : gmap Z journal_row;          (* committed rows, by primary key *)
  clock : Z;                        (* datetime.utcnow *)
  g_model : option Model;           (* audio_processor._model *)
  g_processor : option Processor;   (* audio_processor._processor *)
  next_obj : nat;                   (* allocation counter *)
  model_loads : nat;                (* completed model from_pretrained calls *)
  processor_loads : nat;            (* completed processor from_pretrained calls *)
  upload_closed : bool              (* the request's UploadFile was closed *)
}.

Definition set_fs (f : gset string -> gset string) (w : world) : world :=
  {| fs := f (fs w); db := db w; clock := clock w; g_model := g_model w;
     g_processor := g_processor w; next_obj := next_obj w;
     model_loads := model_loads w; processor_loads := processor_loads w;
     upload_closed := upload_closed w |}.

Definition set_db (f : gmap Z journal_row -> gmap Z journal_row) (w : world)
    : world :=
  {| fs := fs w; db := f (db w); clock := clock w; g_model := g_model w;
     g_processor := g_processor w; next_obj := next_obj w;
     model_loads := model_loads w; processor_loads := processor_loads w;
     upload_closed := upload_closed w |}.

Definition set_upload_closed (b : bool) (w : world) : world :=
  {| fs := fs w; db := db w; clock := clock w; g_model := g_model w;
     g_processor := g_processor w; next_obj := next_obj w;
     model_loads := model_loads w; processor_loads := processor_loads w;
     upload_closed := b |}.

(** *** The state-and-exception monad of a handler *)

Definition M (A : Type) : Type := world -> result A * world.

Definition ret {A} (a : A) : M A := fun w => (Ok a, w).
Definition raise {A} (e : exn) : M A := fun w => (Raise e, w).
Definition bind {A B} (m : M A) (k : A -> M B) : M B :=
  fun w => match m w with
           | (Ok a, w') => k a w'
           | (Raise e, w') => (Raise e, w')
           end.
Definition get : M world := fun w => (Ok w, w).
Definition modify (f : world -> world) : M unit := fun w => (Ok tt, f w).

(** [try: m  except ...: h e] *)
Definition try_except {A} (m : M A) (h : exn -> M A) : M A :=
  fun w => match m w with
           | (Ok a, w') => (Ok a, w')
           | (Raise e, w') => h e w'
           end.

(** [try: m  finally: f]; an exception of [f] replaces the outcome of [m]. *)
Definition try_finally {A} (m : M A) (f : M unit) : M A :=
  fun w => let '(r, w') := m w in
           match f w' with
           | (Ok _, w'') => (r, w'')
           | (Raise e, w'') => (Raise e, w'')
           end.

Declare Scope py_scope.
Delimit Scope py_scope with py.
Notation "x <- m ; k" := (bind m (fun x => k))
  (at level 20, m at level 100, k at level 200, only parsing) : py_scope.
Notation "' p <- m ; k" := (bind m (fun p => k))
  (at level 20, p pattern, m at level 100, k at level 200, only parsing) : py_scope.
Notation "m ;; k" := (bind m (fun _ => k))
  (at level 100, k at level 200, only parsing, right associativity) : py_scope.
Local Open Scope py_scope.

(** [os.path.exists] and [os.unlink] *)
Definition path_exists (p : string) : M bool :=
  fun w => (Ok (bool_decide (p ∈ fs w)), w).
Definition unlink (p : string) : M unit :=
  fun w => if bool_decide (p ∈ fs w) then (Ok tt, set_fs (fun s => s ∖ {[p]}) w)
           else (Raise (Exception "FileNotFoundError"), w).

(** Lookup in a keyword dictionary or local frame. *)
Fixpoint assoc (k : string) (l : list (string * pyval)) : option pyval :=
  match l with
  | [] => None
  | (k', v) :: r => if String.eqb k k' then Some v else assoc k r
  end.

(* ===================================================================== *)
(** ** app/services/audio_processor.py *)
(* ===================================================================== *)

Module AudioProcessor.

Record metadata := {
  md_language : option string;
  md_model : string;
  md_duration_ms : Z;     (* [len(audio)], the source divides it by 1000.0 *)
  md_sample_rate : Z;
  md_channels : Z
}.

Definition set_globals (m : option Model) (p : option Processor)
    (alloc mloads ploads : nat) (w : world) : world :=
  {| fs := fs w; db := db w; clock := clock w; g_model := m;
     g_processor := p; next_obj := next_obj w + alloc;
     model_loads := model_loads w + mloads;
     processor_loads := processor_loads w + ploads;
     upload_closed := upload_closed w |}.

Section WithEnv.
Variable E : env.

(** [_processor = AutoProcessor.from_pretrained(model_name)] *)
Definition assign_processor_from_pretrained : M unit :=
  fun w =>
    if processor_from_pretrained_ok E then
      (Ok tt, set_globals (g_model w) (Some {| processor_obj := next_obj w |}) 1 0 1 w)
    else (Raise (Exception "OSError: cannot load processor"), w).

(** [_model = AutoModelForSpeechSeq2Seq.from_pretrained(model_name, ...)] *)
Definition assign_model_from_pretrained : M unit :=
  fun w =>
    if model_from_pretrained_ok E then
      (Ok tt, set_globals
                (Some {| model_obj := next_obj w; model_device_cuda := false |})
                (g_processor w) 1 1 0 w)
    else (Raise (Exception "OSError: cannot load model"), w).

(** [_model = _model.to("cuda")]: the module is moved in place. *)
Definition assign_model_to_cuda : M unit :=
  fun w =>
    match g_model w with
    | Some m =>
        if model_to_cuda_ok E then
          (Ok tt, set_globals
                    (Some {| model_obj := model_obj m; model_device_cuda := true |})
                    (g_processor w) 0 0 0 w)
        else (Raise (Exception "RuntimeError: CUDA error"), w)
    | None => (Raise (Exception "AttributeError: NoneType has no attribute to"), w)
    end.

Definition load_glm_model : M (option Model * option Processor) :=
  w <- get;
  (if negb (bool_decide (is_Some (g_model w)))
      || negb (bool_decide (is_Some (g_processor w)))
   then
     try_except
       (assign_processor_from_pretrained;;
        assign_model_from_pretrained;;
        (if cuda_is_available E then assign_model_to_cuda else ret tt))
       (fun e => raise e)
   else ret tt);;
  w' <- get;
  ret (g_model w', g_processor w').

(** [AudioSegment.from_file(path)] *)
Definition AudioSegment_from_file (path : string) : M AudioSegment :=
  fun w =>
    if bool_decide (path ∈ fs w) then
      match decode E path with
      | Some a => (Ok a, w)
      | None => (Raise (Exception "CouldntDecodeError"), w)
      end
    else (Raise (Exception "FileNotFoundError"), w).

(** [audio.export(temp_path, format=target_format)] *)
Definition AudioSegment_export (temp_path : string) : M unit :=
  fun w =>
    if export_ok E then (Ok tt, set_fs (fun s => s ∪ {[temp_path]}) w)
    else (Raise (Exception "CouldntEncodeError"), w).

Definition convert_audio_format (audio_file_path : string) (target_format : string)
    : M string :=
  try_except
    (audio <- AudioSegment_from_file audio_file_path;
     let temp_path := (PyStr.splitext audio_file_path).1 +:+ "." +:+ target_format in
     AudioSegment_export temp_path;;
     ret temp_path)
    (fun e => raise e).

Definition set_channels (n : Z) (a : AudioSegment) : AudioSegment :=
  {| channels := n; frame_rate := frame_rate a; duration_ms := duration_ms a |}.
Definition set_frame_rate (r : Z) (a : AudioSegment) : AudioSegment :=
  {| channels := channels a; frame_rate := r; duration_ms := duration_ms a |}.

(** [processor(samples, sampling_rate=16000, return_tensors="pt").input_features] *)
Definition processor_call (processor : option Processor) : M unit :=
  match processor with
  | None => raise (Exception "TypeError: NoneType is not callable")
  | Some _ =>
      if processor_call_ok E then ret tt
      else raise (Exception "ValueError: feature extraction failed")
  end.

(** [model.generate(input_features, **kwargs)] followed by
    [processor.batch_decode(predicted_ids, skip_special_tokens=True)[0]] *)
Definition generate_and_decode (model : option Model) (path : string) : M string :=
  match model with
  | None => raise (Exception "AttributeError: NoneType has no attribute generate")
  | Some _ =>
      match generate E path with
      | Some t => ret t
      | None => raise (Exception "RuntimeError: generation failed")
      end
  end.

(** The local variables of [transcribe_audio], as [locals()] shows them in
    its [finally] block.  [temp_path] is a local of [convert_audio_format],
    not of this function. *)
Definition transcribe_audio_locals (audio_file_path : string)
    (language : option string) : list (string * pyval) :=
  [ ("audio_file_path", VStr audio_file_path);
    ("language", match language with Some l => VStr l | None => VNone end);
    ("kwargs", VObj); ("model", VObj); ("processor", VObj); ("audio", VObj);
    ("samples", VObj); ("input_features", VObj); ("predicted_ids", VObj);
    ("transcription", VObj); ("metadata", VObj) ].

(** [if 'temp_path' in locals() and os.path.exists(locals()['temp_path']):
       os.unlink(locals()['temp_path'])] *)
Definition cleanup_temp (locals : list (string * pyval)) : M unit :=
  match assoc "temp_path" locals with
  | Some (VStr p) =>
      ex <- path_exists p;
      if ex then unlink p else ret tt
  | Some _ => raise (Exception "TypeError: path should be string")
  | None => ret tt
  end.

Definition transcribe_audio (audio_file_path : string) (language : option string)
    (kwargs : list (string * pyval)) : M (string * metadata) :=
  try_finally
    (try_except
       ('(model, processor) <- load_glm_model;
        audio_file_path <-
          (if negb (PyStr.endswith (PyStr.lower audio_file_path) ".wav")
           then convert_audio_format audio_file_path "wav"
           else ret audio_file_path);
        audio <- AudioSegment_from_file audio_file_path;
        let audio := if (1 <? channels audio)%Z then set_channels 1 audio else audio in
        let audio := if negb (frame_rate audio =? 16000)%Z
                     then set_frame_rate 16000 audio else audio in
        processor_call processor;;
        transcription <- generate_and_decode model audio_file_path;
        let metadata := {| md_language := language;
                           md_model := "GLM-ASR-Nano-2512";
                           md_duration_ms := duration_ms audio;
                           md_sample_rate := frame_rate audio;
                           md_channels := channels audio |} in
        ret (transcription, metadata))
       (fun e => raise e))
    (cleanup_temp (transcribe_audio_locals audio_file_path language)).

End WithEnv.

(** [clean_text(text)] for a [str] argument. *)
Definition clean_text (text : string) : string :=
  if negb (PyStr.truthy text) then ""
  else
    let text := PyStr.join " " (PyStr.split text) in
    let text := PyStr.strip text in
    if PyStr.truthy text then
      let text := PyStr.upper (PyStr.take 1 text) +:+ PyStr.drop 1 text in
      if negb (PyStr.endswith_any text ["."; "!"; "?"]) then text +:+ "."
      else text
    else text.


End AudioProcessor.

(* ===================================================================== *)
(** ** The database session *)
(* ===================================================================== *)

Module Session.

(** The identifier the sequence of [journal_entries.id] hands out next: one
    above every identifier in the table. *)
Definition fresh_id (m : gmap Z journal_row) : Z :=
  (1 + foldr Z.max 0 ((map_to_list m).*1))%Z.

(** A [JournalEntry] object that was constructed but not yet flushed. *)
Record pending := {
  p_user_id : Z;
  p_content : string;
  p_audio_path : option string
}.

(** Unpacking a dictionary next to explicit keywords: a key given twice is
    a [TypeError] at the call. *)
Definition call_kwargs (star explicit : list (string * pyval))
    : result (list (string * pyval)) :=
  if existsb (fun kv => bool_decide (is_Some (assoc kv.1 star))) explicit
  then Raise (Exception "TypeError: got multiple values for keyword argument")
  else Ok (star ++ explicit)%list.

(** The constructor of [JournalEntry], called with keyword arguments. *)
Definition JournalEntry_init (kwargs : list (string * pyval)) : result pending :=
  match assoc "content" kwargs, assoc "user_id" kwargs with
  | Some (VStr c), Some (VInt u) =>
      match assoc "audio_path" kwargs with
      | None | Some VNone =>
          Ok {| p_user_id := u; p_content := c; p_audio_path := None |}
      | Some (VStr a) =>
          Ok {| p_user_id := u; p_content := c; p_audio_path := Some a |}
      | Some _ => Raise (Exception "StatementError: audio_path")
      end
  | _, _ => Raise (Exception "StatementError: content, user_id")
  end.

Section WithEnv.
Variable E : env.

(** [db.add(obj); db.commit(); db.refresh(obj)]: the INSERT assigns the
    identifier and both timestamps. *)
Definition add_commit_refresh (p : pending) : M JournalEntry :=
  fun w =>
    if commit_ok E then
      let k := fresh_id (db w) in
      let row := {| r_user_id := p_user_id p; r_content := p_content p;
                    r_audio_path := p_audio_path p;
                    r_created_at := clock w; r_updated_at := clock w |} in
      (Ok (entry_of_row k row), set_db (fun m => <[k := row]> m) w)
    else (Raise (Exception "OperationalError: commit failed"), w).

(** [db.query(JournalEntry).filter(JournalEntry.id == journal_id).first()] *)
Definition query_first (journal_id : Z) : M (option JournalEntry) :=
  fun w => (Ok (entry_of_row journal_id <$> db w !! journal_id), w).

(** The UPDATE that a changed [content] attribute flushes; [onupdate]
    refreshes [updated_at]. *)
Definition update_content (text : string) (now : Z) (r : journal_row) : journal_row :=
  {| r_user_id := r_user_id r; r_content := text; r_audio_path := r_audio_path r;
     r_created_at := r_created_at r; r_updated_at := now |}.

(** [journal.content = text; db.commit()]: an UPDATE is emitted only when
    the attribute really changed. *)
Definition set_content_commit (journal : JournalEntry) (text : string) : M unit :=
  fun w =>
    if commit_ok E then
      if String.eqb (content journal) text then (Ok tt, w)
      else (Ok tt, set_db (alter (update_content text (clock w)) (id journal)) w)
    else (Raise (Exception "OperationalError: commit failed"), w).

(** [db.rollback()]: pending changes are dropped, committed rows stay. *)
Definition rollback : M unit := ret tt.

End WithEnv.
End Session.

(* ===================================================================== *)
(** ** app/schemas/journal.py *)
(* ===================================================================== *)

Module Schemas.

(** [JournalEntryCreate(JournalEntryBase)]: [content] and [user_id] are
    required ([Field(...)]), [audio_path] defaults to [None]. *)
Record JournalEntryCreate := {
  content : string;
  audio_path : option string;
  user_id : Z
}.

(** Construction from keyword arguments, as pydantic validates it. *)
Definition JournalEntryCreate_init (kwargs : list (string * pyval))
    : result JournalEntryCreate :=
  match assoc "content" kwargs, assoc "user_id" kwargs with
  | Some (VStr c), Some (VInt u) =>
      match assoc "audio_path" kwargs with
      | None | Some VNone =>
          Ok {| content := c; audio_path := None; user_id := u |}
      | Some (VStr a) =>
          Ok {| content := c; audio_path := Some a; user_id := u |}
      | Some _ => Raise (Exception "ValidationError: audio_path")
      end
  | Some (VStr _), _ => Raise (Exception "ValidationError: user_id field required")
  | _, _ => Raise (Exception "ValidationError: content")
  end.

(** [journal_data.dict()] *)
Definition dict (j : JournalEntryCreate) : list (string * pyval) :=
  [ ("content", VStr (content j));
    ("audio_path", match audio_path j with Some a => VStr a | None => VNone end);
    ("user_id", VInt (user_id j)) ].

End Schemas.

(* ===================================================================== *)
(** ** app/api/endpoints/audio.py *)
(* ===================================================================== *)

Module Endpoints.

Definition UPLOAD_DIR : string := "uploads/audio".

(** The extensions [transcribe_audio_file] accepts. *)
Definition allowed_extensions : list string :=
  [".wav"; ".mp3"; ".m4a"; ".ogg"; ".webm"].

(** A multipart upload: the declared filename and the chunks that
    successive [read(1024 * 1024)] calls return. *)
Record UploadFile := {
  filename : string;
  chunks : list string
}.

(** The body of a successful [POST /api/transcribe/]. *)
Record transcription_response := {
  tr_status : string;
  tr_text : string;
  tr_audio_path : string;
  tr_metadata : AudioProcessor.metadata
}.

(** The body of a successful [GET /api/journal/{id}/transcribe]. *)
Record retranscription_response := {
  rt_status : string;
  rt_journal_id : Z;
  rt_text : string;
  rt_metadata : AudioProcessor.metadata
}.

(** [os.path.join(a, b)] of [posixpath] *)
Definition os_path_join (a b : string) : string :=
  if String.prefix "/" b then b
  else if negb (PyStr.truthy a) || PyStr.endswith a "/" then a +:+ b
  else a +:+ "/" +:+ b.

Definition lift {A} (r : result A) : M A := fun w => (r, w).

(** The HTTP status the framework answers with: 200 for a returned body,
    the code of an [HTTPException], 500 for any other exception. *)
Definition status_of {A} (r : result A) : Z :=
  match r with
  | Ok _ => 200
  | Raise (HTTPException c _) => c
  | Raise (Exception _) => 500
  end.

(** The extension that [transcribe_audio_file] checks:
    [os.path.splitext(audio_file.filename.lower())[1]] *)
Definition checked_ext (f : UploadFile) : string :=
  (PyStr.splitext (PyStr.lower (filename f))).2.

(** The exception of the format check. *)
Definition unsupported : exn :=
  HTTPException 400
    "Unsupported file format. Supported formats: WAV, MP3, M4A, OGG, WEBM".

Section WithEnv.
Variable E : env.

(** [os.makedirs(os.path.dirname(destination), exist_ok=True)] *)
Definition makedirs : M unit :=
  if makedirs_ok E then ret tt else raise (Exception "OSError: makedirs").

(** [open(destination, "wb")]: the file exists from here on. *)
Definition open_wb (destination : string) : M unit :=
  fun w =>
    if open_ok E then (Ok tt, set_fs (fun s => s ∪ {[destination]}) w)
    else (Raise (Exception "OSError: open"), w).

(** [while chunk := await upload_file.read(1024 * 1024): buffer.write(chunk)] *)
Fixpoint write_chunks (k : nat) (cs : list string) : M unit :=
  match cs with
  | [] => ret tt
  | c :: r =>
      if PyStr.truthy c then
        if write_ok E k then write_chunks (S k) r
        else raise (Exception "OSError: write")
      else ret tt
  end.

(** [await upload_file.close()] *)
Definition upload_close : M unit := modify (set_upload_closed true).

Definition save_upload_file (upload_file : UploadFile) (destination : string)
    : M string :=
  try_finally
    (try_except
       (makedirs;;
        open_wb destination;;
        write_chunks 0 (chunks upload_file);;
        ret destination)
       (fun e =>
          ex <- path_exists destination;
          (if ex then unlink destination else ret tt);;
          raise (HTTPException 500 ("Failed to save file: " +:+ str_of_exn e))))
    upload_close.

Definition transcribe_audio_file (audio_file : UploadFile) (language : option string)
    : M transcription_response :=
  try_except
    (let file_ext := checked_ext audio_file in
     (if negb (bool_decide (file_ext ∈ allowed_extensions))
      then raise unsupported
      else ret tt);;
     let filename := uuid4 E +:+ file_ext in
     let file_path := os_path_join UPLOAD_DIR filename in
     save_upload_file audio_file file_path;;
     try_except
       ('(text, metadata) <-
            AudioProcessor.transcribe_audio E file_path language [("beam_size", VInt 5)];
        ret {| tr_status := "success"; tr_text := text;
               tr_audio_path := file_path; tr_metadata := metadata |})
       (fun e =>
          ex <- path_exists file_path;
          (if ex then unlink file_path else ret tt);;
          raise (HTTPException 500 ("Transcription failed: " +:+ str_of_exn e))))
    (fun e =>
       match e with
       | HTTPException _ _ => raise e
       | Exception _ =>
           raise (HTTPException 500
                    ("An unexpected error occurred: " +:+ str_of_exn e))
       end).

Definition create_journal_from_audio (audio_file : UploadFile) : M JournalEntry :=
  try_except
    (transcription <- transcribe_audio_file audio_file (Some "en");
     (if negb (String.eqb (tr_status transcription) "success")
      then raise (HTTPException 400 "Failed to transcribe audio")
      else ret tt);;
     journal_data <- lift (Schemas.JournalEntryCreate_init
                             [("content", VStr (tr_text transcription));
                              ("audio_path", VStr (tr_audio_path transcription))]);
     kwargs <- lift (Session.call_kwargs (Schemas.dict journal_data)
                                         [("user_id", VInt 1)]);
     db_journal <- lift (Session.JournalEntry_init kwargs);
     Session.add_commit_refresh E db_journal)
    (fun e =>
       match e with
       | HTTPException _ _ => raise e
       | Exception _ =>
           Session.rollback;;
           raise (HTTPException 500
                    ("Failed to create journal entry: " +:+ str_of_exn e))
       end).

Definition create_journal_from_text (content : string) : M JournalEntry :=
  try_except
    (let cleaned_text := AudioProcessor.clean_text content in
     journal_data <- lift (Schemas.JournalEntryCreate_init
                             [("content", VStr cleaned_text);
                              ("audio_path", VNone)]);
     kwargs <- lift (Session.call_kwargs (Schemas.dict journal_data)
                                         [("user_id", VInt 1)]);
     db_journal <- lift (Session.JournalEntry_init kwargs);
     Session.add_commit_refresh E db_journal)
    (fun e =>
       Session.rollback;;
       raise (HTTPException 500
                ("Failed to create journal entry: " +:+ str_of_exn e))).

(** [not journal.audio_path]: the reference is [None] or the empty string. *)
Definition no_audio_path (a : option string) : bool :=
  match a with
  | None => true
  | Some p => negb (PyStr.truthy p)
  end.

Definition transcribe_existing_journal_audio (journal_id : Z)
    : M retranscription_response :=
  try_except
    (journal <- Session.query_first journal_id;
     match journal with
     | None => raise (HTTPException 404 "Journal entry not found")
     | Some journal =>
         missing <-
           (if no_audio_path (audio_path journal) then ret true
            else ex <- path_exists (default "" (audio_path journal));
                 ret (negb ex));
         if missing then
           raise (HTTPException 400
             "No audio file associated with this journal entry or file not found")
         else
           '(text, metadata) <-
              AudioProcessor.transcribe_audio E
                (default "" (audio_path journal)) (Some "en") [];
           Session.set_content_commit E journal text;;
           ret {| rt_status := "success"; rt_journal_id := journal_id;
                  rt_text := text; rt_metadata := metadata |}
     end)
    (fun e =>
       match e with
       | HTTPException _ _ => raise e
       | Exception _ =>
           Session.rollback;;
           raise (HTTPException 500
                    ("Failed to transcribe journal audio: " +:+ str_of_exn e))
       end).

End WithEnv.
End Endpoints.

(* ===================================================================== *)
(** ** main.py: the stand-alone application *)
(* ===================================================================== *)

Module Main.

(** [JournalEntryCreate] of [main.py]: no [user_id] field. *)
Record JournalEntryCreate := {
  content : string;
  audio_path : option string
}.

Definition dict (j : JournalEntryCreate) : list (string * pyval) :=
  [ ("content", VStr (content j));
    ("audio_path", match audio_path j with Some a => VStr a | None => VNone end) ].

Section WithEnv.
Variable E : env.

Definition create_journal_entry (entry : JournalEntryCreate) : M JournalEntry :=
  kwargs <- Endpoints.lift (Session.call_kwargs (dict entry) [("user_id", VInt 1)]);
  db_entry <- Endpoints.lift (Session.JournalEntry_init kwargs);
  Session.add_commit_refresh E db_entry.

End WithEnv.
End Main.

(* ===================================================================== *)
(** ** The normalizer as the specification words it *)
(* ===================================================================== *)

Module NormalizerSpec.

Definition starts_space (s : string) : bool :=
  match s with EmptyString => false | String c _ => PyStr.isspace c end.


Definition capitalize_first (s : string) : string :=
  match s with
  | EmptyString => EmptyString
  | String c r => String (PyStr.upper_char c) r
  end.

Fixpoint last_char (s : string) : option ascii :=
  match s with
  | EmptyString => None
  | String c r => match last_char r with Some d => Some d | None => Some c end
  end.

Definition ends_sentence (s : string) : bool :=
  match last_char s with
  | Some c => Ascii.eqb c "." || Ascii.eqb c "!" || Ascii.eqb c "?"
  | None => false
  end.



End NormalizerSpec.

(* ===================================================================== *)
(** ** Notions used by the statements and their proofs *)
(* ===================================================================== *)

Module NormalForm.

(** The first step of [clean_text]: split on whitespace, join with spaces. *)
Definition jn (s : string) : string := PyStr.join " " (PyStr.split s).

(** Whitespace occurs only as a single space between two words. *)
Fixpoint single_spaced (s : string) : bool :=
  match s with
  | EmptyString => true
  | String c r =>
      (if PyStr.isspace c then Ascii.eqb c " " && PyStr.starts_word r else true)
      && single_spaced r
  end.

End NormalForm.

Module Frame.

(** [m] leaves the component [proj] of the world as it found it. *)
Definition keeps {A B} (proj : world -> B) (m : M A) : Prop :=
  forall w, proj (m w).2 = proj w.

(** Every exception that escapes [m] satisfies [P]. *)
Definition raises_only {A} (P : exn -> Prop) (m : M A) : Prop :=
  forall w, match (m w).1 with Ok _ => True | Raise e => P e end.

(** An exception that is not answered with status 400. *)
Definition not_400 (e : exn) : Prop :=
  forall d, e <> HTTPException 400 d.

End Frame.

(* ===================================================================== *)
(** ** Sequences of calls, and sample surroundings *)
(* ===================================================================== *)

Module Process.




End Process.

Module Samples.

Definition stereo : AudioSegment :=
  {| channels := 2; frame_rate := 44100; duration_ms := 1500 |}.

(** Surroundings in which every external step succeeds. *)
Definition env_ok : env :=
  {| cuda_is_available := false;
     processor_from_pretrained_ok := true;
     model_from_pretrained_ok := true;
     model_to_cuda_ok := true;
     decode := fun _ => Some stereo;
     export_ok := true;
     processor_call_ok := true;
     generate := fun _ => Some "hello world";
     makedirs_ok := true;
     open_ok := true;
     write_ok := fun _ => true;
     commit_ok := true;
     uuid4 := "0f8fad5b-d9cb-469f-a165-70867728950e" |}.


(** Surroundings in which the model produces no transcription. *)
Definition env_asr_fails : env :=
  {| cuda_is_available := false;
     processor_from_pretrained_ok := true;
     model_from_pretrained_ok := true;
     model_to_cuda_ok := true;
     decode := fun _ => Some stereo;
     export_ok := true;
     processor_call_ok := true;
     generate := fun _ => None;
     makedirs_ok := true;
     open_ok := true;
     write_ok := fun _ => true;
     commit_ok := true;
     uuid4 := "0f8fad5b-d9cb-469f-a165-70867728950e" |}.

Definition world0 : world :=
  {| fs := ∅; db := ∅; clock := 100; g_model := None; g_processor := None;
     next_obj := 0; model_loads := 0; processor_loads := 0;
     upload_closed := false |}.

(** Storage holds one uploaded MP3 and one WAV; the table holds an entry
    for each and one entry without audio. *)
Definition world1 : world :=
  {| fs := {[ "uploads/audio/memo.mp3"; "uploads/audio/note.wav" ]};
     db := <[ 1%Z := {| r_user_id := 1; r_content := "Old text.";
                        r_audio_path := Some "uploads/audio/note.wav";
                        r_created_at := 10; r_updated_at := 10 |} ]>
           (<[ 2%Z := {| r_user_id := 1; r_content := "Typed.";
                         r_audio_path := None;
                         r_created_at := 20; r_updated_at := 20 |} ]>
           (<[ 3%Z := {| r_user_id := 1; r_content := "Lost.";
                         r_audio_path := Some "uploads/audio/gone.wav";
                         r_created_at := 30; r_updated_at := 30 |} ]> ∅));
     clock := 100; g_model := None; g_processor := None;
     next_obj := 0; model_loads := 0; processor_loads := 0;
     upload_closed := false |}.

Definition upload_txt : Endpoints.UploadFile :=
  {| Endpoints.filename := "notes.txt"; Endpoints.chunks := ["abc"] |}.

Definition upload_mp3 : Endpoints.UploadFile :=
  {| Endpoints.filename := "Memo.MP3"; Endpoints.chunks := ["abc"; "def"] |}.

End Samples.

(* ===================================================================== *)
(** ** Further surroundings, and notions derived from the code *)
(* ===================================================================== *)

Module Scenarios.

(** A GPU is present, both downloads succeed, moving the model fails. *)
Definition env_cuda_fails : env :=
  {| cuda_is_available := true;
     processor_from_pretrained_ok := true;
     model_from_pretrained_ok := true;
     model_to_cuda_ok := false;
     decode := fun _ => Some Samples.stereo;
     export_ok := true;
     processor_call_ok := true;
     generate := fun _ => Some "hello world";
     makedirs_ok := true;
     open_ok := true;
     write_ok := fun _ => true;
     commit_ok := true;
     uuid4 := "0f8fad5b-d9cb-469f-a165-70867728950e" |}.

(** A GPU is present and everything succeeds. *)
Definition env_cuda_ok : env :=
  {| cuda_is_available := true;
     processor_from_pretrained_ok := true;
     model_from_pretrained_ok := true;
     model_to_cuda_ok := true;
     decode := fun _ => Some Samples.stereo;
     export_ok := true;
     processor_call_ok := true;
     generate := fun _ => Some "hello world";
     makedirs_ok := true;
     open_ok := true;
     write_ok := fun _ => true;
     commit_ok := true;
     uuid4 := "0f8fad5b-d9cb-469f-a165-70867728950e" |}.

End Scenarios.

Module Derived.

(** The path [convert_audio_format] writes for the input [p]. *)
Definition wav_path (p : string) : string := (PyStr.splitext p).1 +:+ ".wav".

(** [transcribe_audio] converts exactly the inputs for which this is false. *)
Definition is_wav (p : string) : bool := PyStr.endswith (PyStr.lower p) ".wav".

(** Every step of a model load succeeds in the surroundings [E]. *)
Definition load_succeeds (E : env) : bool :=
  processor_from_pretrained_ok E && model_from_pretrained_ok E
  && (negb (cuda_is_available E) || model_to_cuda_ok E).

(** The path under which [transcribe_audio_file] stores the upload [f]. *)
Definition stored_path (E : env) (f : Endpoints.UploadFile) : string :=
  Endpoints.os_path_join Endpoints.UPLOAD_DIR (uuid4 E +:+ Endpoints.checked_ext f).

(** The exception is not an [HTTPException]. *)
Definition plain (e : exn) : Prop := exists m, e = Exception m.


(** Does the character [c] occur in [s]? *)
Fixpoint occurs (c : ascii) (s : string) : bool :=
  match s with
  | EmptyString => false
  | String d r => Ascii.eqb d c || occurs c r
  end.

(** The last component of a path: what follows its last slash. *)
Definition basename (p : string) : string :=
  PyStr.drop (Z.to_nat (PyStr.rfind "/" p + 1)) p.

End Derived.

(* ===================================================================== *)
(** * The model on sample inputs *)
(* ===================================================================== *)

Example split_demo :
  PyStr.split "  hello   world " = ["hello"; "world"].
Proof. reflexivity. Qed.

Example splitext_demo :
  PyStr.splitext "uploads/a.b/.hidden" = ("uploads/a.b/.hidden", "")
  /\ PyStr.splitext "dir.d/x.tar.GZ" = ("dir.d/x.tar", ".GZ")
  /\ PyStr.splitext "noext" = ("noext", "")
  /\ PyStr.splitext "..mp3" = ("..mp3", "")
  /\ PyStr.splitext "a..mp3" = ("a.", ".mp3").
Proof. repeat split; reflexivity. Qed.

Example strip_demo : PyStr.strip "  a b  " = "a b" /\ PyStr.endswith "ab!" "!" = true.
Proof. split; reflexivity. Qed.

Example clean_text_demo :
  AudioProcessor.clean_text "   " = ""
  /\ AudioProcessor.clean_text "ok?" = "Ok?"
  /\ AudioProcessor.clean_text (String "009" "a  b") = "A b.".
Proof. repeat split; reflexivity. Qed.

(* ===================================================================== *)
(** * Properties of the string operations *)
(* ===================================================================== *)

Section StringFacts.
Import PyStr NormalForm.

Lemma append_String c s t : String c s +:+ t = String c (s +:+ t).
Proof. reflexivity. Qed.

Lemma append_empty_r s : s +:+ "" = s.
Proof. induction s as [|c s IH]; [done | by rewrite append_String, IH]. Qed.





Lemma join_cons_char c w ws :
  join " " (String c w :: ws) = String c (join " " (w :: ws)).
Proof. destruct ws; reflexivity. Qed.

Lemma split_starts_word r :
  starts_word r = true -> exists w ws, split r = w :: ws.
Proof.
  destruct r as [|c r]; simpl; [done|].
  intros Hc. apply negb_true_iff in Hc. rewrite Hc.
  destruct (starts_word r); [destruct (split r)|]; eauto.
Qed.

Lemma jn_space c r : isspace c = true -> jn (String c r) = jn r.
Proof. intros H. unfold jn. simpl. by rewrite H. Qed.

Lemma jn_inside c r :
  isspace c = false -> starts_word r = true ->
  jn (String c r) = String c (jn r).
Proof.
  intros Hc Hr. unfold jn. simpl. rewrite Hc, Hr.
  destruct (split_starts_word r Hr) as (w & ws & ->).
  apply join_cons_char.
Qed.

Lemma split_head_truthy r w ws : split r = w :: ws -> truthy w = true.
Proof.
  revert w ws. induction r as [|d r IH]; intros w ws; simpl; [done|].
  destruct (isspace d); [by apply IH|].
  destruct (starts_word r).
  - destruct (split r); by intros [= <- <-].
  - by intros [= <- <-].
Qed.

Lemma truthy_join w ws : truthy w = true -> truthy (join " " (w :: ws)) = true.
Proof. destruct w; [done|]. intros _. by rewrite join_cons_char. Qed.

Lemma jn_word_end c r :
  isspace c = false -> starts_word r = false ->
  jn (String c r) =
    if truthy (jn r) then String c (String " " (jn r)) else String c "".
Proof.
  intros Hc Hr. unfold jn. simpl split. rewrite Hc, Hr.
  destruct (split r) as [|w ws] eqn:Hs; [done|].
  rewrite (truthy_join w ws (split_head_truthy _ _ _ Hs)).
  reflexivity.
Qed.

Lemma jn_starts_word r : starts_word r = true -> starts_word (jn r) = true.
Proof.
  destruct r as [|c r]; simpl; [done|]. intros Hc.
  apply negb_true_iff in Hc.
  destruct (starts_word r) eqn:Hr.
  - rewrite jn_inside by done. simpl. by rewrite Hc.
  - rewrite jn_word_end by done. destruct (truthy (jn r)); simpl; by rewrite Hc.
Qed.

Lemma jn_empty_or_word r : jn r = "" \/ starts_word (jn r) = true.
Proof.
  induction r as [|c r IH]; [by left|].
  destruct (isspace c) eqn:Hc.
  - by rewrite jn_space.
  - right. apply jn_starts_word. simpl. by rewrite Hc.
Qed.


Lemma jn_single_spaced r : single_spaced (jn r) = true.
Proof.
  induction r as [|c r IH]; [done|].
  destruct (isspace c) eqn:Hc; [by rewrite jn_space|].
  destruct (starts_word r) eqn:Hr.
  - rewrite jn_inside by done. simpl. by rewrite Hc.
  - rewrite jn_word_end by done.
    destruct (truthy (jn r)) eqn:Ht; simpl; rewrite Hc; [|done].
    destruct (jn_empty_or_word r) as [He|Hw]; [by rewrite He in Ht|].
    by rewrite Hw, IH.
Qed.

Lemma lstrip_starts_word s : starts_word s = true -> lstrip s = s.
Proof.
  destruct s as [|c s]; simpl; [done|]. intros H.
  apply negb_true_iff in H. by rewrite H.
Qed.

Lemma rstrip_single_spaced s : single_spaced s = true -> rstrip s = s.
Proof.
  induction s as [|c s IH]; simpl; [done|].
  intros [Hc Hs]%andb_true_iff. rewrite (IH Hs).
  destruct s as [|d s]; [|done].
  destruct (isspace c); [|done].
  by rewrite andb_false_r in Hc.
Qed.

Lemma strip_normal s :
  single_spaced s = true -> s = "" \/ starts_word s = true -> strip s = s.
Proof.
  intros Hs [->|Hw]; [done|].
  unfold strip. rewrite lstrip_starts_word by done.
  by apply rstrip_single_spaced.
Qed.

Lemma strip_jn r : strip (jn r) = jn r.
Proof. apply strip_normal; [apply jn_single_spaced | apply jn_empty_or_word]. Qed.



End StringFacts.

(* ===================================================================== *)
(** * The text normalizer *)
(* ===================================================================== *)

Section Normalizer.
Import PyStr NormalForm NormalizerSpec AudioProcessor.




Lemma starts_word_space r : starts_word r = true -> starts_space r = false.
Proof. destruct r; simpl; [done|]. by intros ?%negb_true_iff. Qed.



Lemma drop_length_last a s :
  drop (String.length s) (String a s) = String (default a (last_char s)) "".
Proof.
  revert a. induction s as [|b s IH]; intros a; [done|].
  simpl. rewrite IH. by destruct (last_char s).
Qed.

Lemma endswith_char s c :
  endswith s (String c "") =
    match last_char s with Some d => Ascii.eqb d c | None => false end.
Proof.
  destruct s as [|a s]; [done|].
  unfold endswith. simpl String.length.
  replace (S (String.length s) - 1) with (String.length s) by lia.
  rewrite drop_length_last. simpl.
  destruct (last_char s); simpl; by destruct (Ascii.eqb _ c).
Qed.

Lemma endswith_any_sentence s :
  endswith_any s ["."; "!"; "?"] = ends_sentence s.
Proof.
  unfold endswith_any, ends_sentence. simpl.
  rewrite !endswith_char.
  destruct (last_char s); [by rewrite orb_false_r, orb_assoc | done].
Qed.

Lemma capitalize_slices s :
  upper (take 1 s) +:+ drop 1 s = capitalize_first s.
Proof. destruct s; reflexivity. Qed.

(** [clean_text] in terms of the collapsed, trimmed and capitalized text. *)
Lemma clean_text_unfold x :
  clean_text x =
    if truthy x then
      let t := capitalize_first (jn x) in
      if truthy t then (if ends_sentence t then t else t +:+ ".") else ""
    else "".
Proof.
  unfold clean_text. fold (jn x). rewrite strip_jn.
  destruct (truthy x); [|done].
  change (negb true) with false. cbv beta iota zeta.
  destruct (jn x) as [|c r] eqn:Hj; [done|].
  rewrite capitalize_slices, endswith_any_sentence.
  change (truthy (String c r)) with true.
  change (truthy (capitalize_first (String c r))) with true.
  cbv beta iota. by destruct (ends_sentence _).
Qed.











End Normalizer.

(* ===================================================================== *)
(** * Frame rules for the handler monad *)
(* ===================================================================== *)

Section FrameRules.
Import Frame.
Context {B : Type} (proj : world -> B).

Lemma keeps_ret {A} (a : A) : keeps proj (ret a).
Proof. by intros w. Qed.

Lemma keeps_raise {A} e : keeps proj (raise (A:=A) e).
Proof. by intros w. Qed.

Lemma keeps_get : keeps proj get.
Proof. by intros w. Qed.

Lemma keeps_lift {A} (r : result A) : keeps proj (Endpoints.lift r).
Proof. by intros w. Qed.

Lemma keeps_bind {A C} (m : M A) (k : A -> M C) :
  keeps proj m -> (forall a, keeps proj (k a)) -> keeps proj (bind m k).
Proof.
  intros Hm Hk w. unfold bind. specialize (Hm w).
  destruct (m w) as [[a|e] w1]; simpl in *; [|done].
  by rewrite Hk.
Qed.

Lemma keeps_try_except {A} (m : M A) h :
  keeps proj m -> (forall e, keeps proj (h e)) -> keeps proj (try_except m h).
Proof.
  intros Hm Hh w. unfold try_except. specialize (Hm w).
  destruct (m w) as [[a|e] w1]; simpl in *; [done|].
  by rewrite Hh.
Qed.

Lemma keeps_try_finally {A} (m : M A) f :
  keeps proj m -> keeps proj f -> keeps proj (try_finally m f).
Proof.
  intros Hm Hf w. unfold try_finally. specialize (Hm w).
  destruct (m w) as [r w1]. specialize (Hf w1).
  destruct (f w1) as [[u|e] w2]; simpl in *; congruence.
Qed.

Lemma keeps_if {A} (b : bool) (m1 m2 : M A) :
  keeps proj m1 -> keeps proj m2 -> keeps proj (if b then m1 else m2).
Proof. by destruct b. Qed.

Lemma keeps_path_exists p : keeps proj (path_exists p).
Proof. by intros w. Qed.

End FrameRules.

Section RaisesRules.
Import Frame.
Context (P : exn -> Prop).

Lemma raises_only_ret {A} (a : A) : raises_only P (ret a).
Proof. by intros w. Qed.

Lemma raises_only_raise {A} e : P e -> raises_only P (raise (A:=A) e).
Proof. by intros H w. Qed.

Lemma raises_only_bind {A C} (m : M A) (k : A -> M C) :
  raises_only P m -> (forall a, raises_only P (k a)) -> raises_only P (bind m k).
Proof.
  intros Hm Hk w. unfold bind. specialize (Hm w).
  destruct (m w) as [[a|e] w1]; simpl in *; [apply Hk | done].
Qed.

(** Whatever the body does, only what the handler raises gets out. *)
Lemma raises_only_try_except {A} (m : M A) h :
  (forall e, raises_only P (h e)) -> raises_only P (try_except m h).
Proof.
  intros Hh w. unfold try_except.
  destruct (m w) as [[a|e] w1]; simpl; [done | apply Hh].
Qed.

Lemma raises_only_try_finally {A} (m : M A) f :
  raises_only P m -> raises_only P f -> raises_only P (try_finally m f).
Proof.
  intros Hm Hf w. unfold try_finally. specialize (Hm w).
  destruct (m w) as [r w1]. specialize (Hf w1).
  destruct (f w1) as [[u|e] w2]; simpl in *; done.
Qed.

Lemma raises_only_if {A} (b : bool) (m1 m2 : M A) :
  raises_only P m1 -> raises_only P m2 -> raises_only P (if b then m1 else m2).
Proof. by destruct b. Qed.

Lemma raises_only_path_exists p : raises_only P (path_exists p).
Proof. by intros w. Qed.

End RaisesRules.

(** Components of the world that neither the storage nor the module
    globals are part of. *)
Section Untouched.
Import Frame AudioProcessor.
Context {B : Type} (proj : world -> B).
Hypothesis proj_set_fs : forall f w, proj (set_fs f w) = proj w.
Hypothesis proj_set_globals :
  forall m p a b c w, proj (set_globals m p a b c w) = proj w.
Variable E : env.

Lemma keeps_unlink p : keeps proj (unlink p).
Proof. intros w. unfold unlink. case_bool_decide; simpl; by rewrite ?proj_set_fs. Qed.

Lemma keeps_load_glm_model : keeps proj (load_glm_model E).
Proof.
  unfold load_glm_model.
  apply keeps_bind; [apply keeps_get|intros w0].
  apply keeps_bind; [|intros _; apply keeps_bind; [apply keeps_get|intros; apply keeps_ret]].
  apply keeps_if; [|apply keeps_ret].
  apply keeps_try_except; [|intros; apply keeps_raise].
  apply keeps_bind; [|intros _; apply keeps_bind; [|intros _; apply keeps_if; [|apply keeps_ret]]].
  - intros w. unfold assign_processor_from_pretrained.
    case_match; simpl; by rewrite ?proj_set_globals.
  - intros w. unfold assign_model_from_pretrained.
    case_match; simpl; by rewrite ?proj_set_globals.
  - intros w. unfold assign_model_to_cuda.
    repeat case_match; simpl; by rewrite ?proj_set_globals.
Qed.

Lemma keeps_from_file p : keeps proj (AudioSegment_from_file E p).
Proof. intros w. unfold AudioSegment_from_file. by repeat case_match. Qed.

Lemma keeps_export p : keeps proj (AudioSegment_export E p).
Proof.
  intros w. unfold AudioSegment_export.
  case_match; simpl; by rewrite ?proj_set_fs.
Qed.

Lemma keeps_convert_audio_format p t : keeps proj (convert_audio_format E p t).
Proof.
  unfold convert_audio_format.
  apply keeps_try_except; [|intros; apply keeps_raise].
  apply keeps_bind; [apply keeps_from_file|intros a].
  apply keeps_bind; [apply keeps_export|intros; apply keeps_ret].
Qed.

Lemma keeps_processor_call p : keeps proj (processor_call E p).
Proof. intros w. unfold processor_call. by repeat case_match. Qed.

Lemma keeps_generate_and_decode m p : keeps proj (generate_and_decode E m p).
Proof. intros w. unfold generate_and_decode. by repeat case_match. Qed.

Lemma keeps_cleanup_temp l : keeps proj (cleanup_temp l).
Proof.
  unfold cleanup_temp. repeat case_match;
    try apply keeps_ret; try apply keeps_raise.
  apply keeps_bind; [apply keeps_path_exists|intros ex].
  apply keeps_if; [apply keeps_unlink | apply keeps_ret].
Qed.

Lemma keeps_transcribe_audio p l kw : keeps proj (transcribe_audio E p l kw).
Proof.
  unfold transcribe_audio.
  apply keeps_try_finally; [|apply keeps_cleanup_temp].
  apply keeps_try_except; [|intros; apply keeps_raise].
  apply keeps_bind; [apply keeps_load_glm_model|intros [m pr]].
  apply keeps_bind.
  { apply keeps_if; [apply keeps_convert_audio_format | apply keeps_ret]. }
  intros p'. apply keeps_bind; [apply keeps_from_file|intros a].
  apply keeps_bind; [apply keeps_processor_call|intros _].
  apply keeps_bind; [apply keeps_generate_and_decode|intros t].
  apply keeps_ret.
Qed.

End Untouched.

(* ===================================================================== *)
(** * The transcription service *)
(* ===================================================================== *)

Section Service.
Import AudioProcessor Process Samples.

Lemma load_glm_model_loaded E w m p :
  g_model w = Some m -> g_processor w = Some p ->
  load_glm_model E w = (Ok (Some m, Some p), w).
Proof.
  intros Hm Hp. unfold load_glm_model, bind, get. simpl.
  rewrite Hm, Hp. simpl. by rewrite Hm, Hp.
Qed.

Ltac load_cases E w :=
  unfold load_glm_model, bind, get, try_except, ret, raise,
    assign_processor_from_pretrained, assign_model_from_pretrained,
    assign_model_to_cuda;
  destruct (g_model w) as [?m|] eqn:?Hm, (g_processor w) as [?p|] eqn:?Hp;
  simpl;
  destruct (processor_from_pretrained_ok E), (model_from_pretrained_ok E),
    (cuda_is_available E), (model_to_cuda_ok E);
  simpl.

Lemma load_glm_model_ok E w r w' :
  load_glm_model E w = (Ok r, w') ->
  exists m p, r = (Some m, Some p) /\ g_model w' = Some m /\ g_processor w' = Some p.
Proof.
  load_cases E w; rewrite ?Hm, ?Hp; intros [= <- <-]; simpl;
    rewrite ?Hm, ?Hp; eauto.
Qed.






(** C1: the [finally] block of [transcribe_audio] looks [temp_path] up in
    its own locals, where no such name exists, so it deletes nothing.  On
    an MP3 input the WAV that [convert_audio_format] wrote is still on
    storage after the call, when it returns a transcription and when it
    raises. *)
Theorem transcribe_audio_leaves_converted_wav :
  (forall p l, cleanup_temp (transcribe_audio_locals p l) = ret tt)
  /\ ("uploads/audio/memo.wav" ∉ fs world1)
  /\ (let '(r, w') := transcribe_audio env_ok "uploads/audio/memo.mp3"
                        (Some "en") [] world1 in
      (exists t md, r = Ok (t, md)) /\ ("uploads/audio/memo.wav" ∈ fs w'))
  /\ (let '(r, w') := transcribe_audio env_asr_fails "uploads/audio/memo.mp3"
                        (Some "en") [] world1 in
      (exists e, r = Raise e) /\ ("uploads/audio/memo.wav" ∈ fs w')).
Proof.
  split; [done|]. split.
  { apply (bool_decide_unpack _). vm_compute. exact I. }
  split.
  - destruct (transcribe_audio _ _ _ _ _) as [r w'] eqn:H.
    vm_compute in H. injection H as <- <-. split; [eauto|].
    apply (bool_decide_unpack _). vm_compute. exact I.
  - destruct (transcribe_audio _ _ _ _ _) as [r w'] eqn:H.
    vm_compute in H. injection H as <- <-. split; [eauto|].
    apply (bool_decide_unpack _). vm_compute. exact I.
Qed.

End Service.

(* ===================================================================== *)
(** * The HTTP endpoints *)
(* ===================================================================== *)

Section EndpointFacts.
Import Frame AudioProcessor Endpoints Samples.

Lemma transcribe_audio_file_rejected E f l w :
  bool_decide (checked_ext f ∈ allowed_extensions) = false ->
  transcribe_audio_file E f l w = (Raise unsupported, w).
Proof.
  intros H. unfold transcribe_audio_file, try_except, bind.
  rewrite H. reflexivity.
Qed.

Lemma save_upload_file_closes E f p w :
  upload_closed (save_upload_file E f p w).2 = true.
Proof.
  unfold save_upload_file, try_finally.
  destruct (try_except _ _ w) as [r w1]. reflexivity.
Qed.

Lemma closes_bind {A C} (m : M A) (k : A -> M C) :
  (forall w, upload_closed (m w).2 = true) ->
  (forall a, keeps upload_closed (k a)) ->
  forall w, upload_closed (bind m k w).2 = true.
Proof.
  intros Hm Hk w. unfold bind. specialize (Hm w).
  destruct (m w) as [[a|e] w1]; simpl in *; [|done].
  by rewrite Hk.
Qed.

Lemma closes_try_except {A} (m : M A) h :
  (forall w, upload_closed (m w).2 = true) ->
  (forall e, keeps upload_closed (h e)) ->
  forall w, upload_closed (try_except m h w).2 = true.
Proof.
  intros Hm Hh w. unfold try_except. specialize (Hm w).
  destruct (m w) as [[a|e] w1]; simpl in *; [done|].
  by rewrite Hh.
Qed.

(** The handler of a failed transcription: delete the upload, answer 500. *)
Lemma keeps_unlink_and_raise {A B} (proj : world -> B) p e :
  (forall g w, proj (set_fs g w) = proj w) ->
  keeps proj (ex <- path_exists p; (if ex then unlink p else ret tt);; raise (A:=A) e)%py.
Proof.
  intros Hfs. apply keeps_bind; [apply keeps_path_exists|intros ex].
  apply keeps_bind; [|intros; apply keeps_raise].
  apply keeps_if; [|apply keeps_ret]. by apply keeps_unlink.
Qed.

Lemma transcribe_audio_file_accepted_closes E f l w :
  bool_decide (checked_ext f ∈ allowed_extensions) = true ->
  upload_closed (transcribe_audio_file E f l w).2 = true.
Proof.
  intros H. revert w. unfold transcribe_audio_file. rewrite H.
  apply closes_try_except; [|intros [c d|m]; apply keeps_raise].
  change (negb true) with false. cbv beta iota zeta.
  intros w. change (bind (ret tt) ?k w) with (k tt w). revert w.
  apply closes_bind; [apply save_upload_file_closes|intros _].
  apply keeps_try_except.
  - apply keeps_bind; [|intros [t md]; apply keeps_ret].
    by apply keeps_transcribe_audio.
  - intros e. by apply keeps_unlink_and_raise.
Qed.

End EndpointFacts.

Section Statuses.
Import Frame AudioProcessor Endpoints.

Lemma raises_only_try_except_from {A} (P Q : exn -> Prop) (m : M A) h :
  raises_only Q m -> (forall e, Q e -> raises_only P (h e)) ->
  raises_only P (try_except m h).
Proof.
  intros Hm Hh w. unfold try_except. specialize (Hm w).
  destruct (m w) as [[a|e] w1]; simpl in *; [done | by apply Hh].
Qed.

Lemma not_400_exception m : not_400 (Exception m).
Proof. by intros d. Qed.

Lemma not_400_500 d : not_400 (HTTPException 500 d).
Proof. by intros d'. Qed.

Lemma raises_only_unlink p : raises_only not_400 (unlink p).
Proof.
  intros w. unfold unlink. case_bool_decide; simpl; [done|].
  apply not_400_exception.
Qed.

Lemma raises_only_unlink_and_raise {A} p d :
  raises_only not_400
    (ex <- path_exists p; (if ex then unlink p else ret tt);;
     raise (A:=A) (HTTPException 500 d))%py.
Proof.
  apply raises_only_bind; [apply raises_only_path_exists|intros ex].
  apply raises_only_bind.
  - apply raises_only_if; [apply raises_only_unlink | apply raises_only_ret].
  - intros _. apply raises_only_raise, not_400_500.
Qed.

Lemma raises_only_save_upload_file E f p :
  raises_only not_400 (save_upload_file E f p).
Proof.
  unfold save_upload_file. apply raises_only_try_finally; [|by intros w].
  apply raises_only_try_except. intros e. apply raises_only_unlink_and_raise.
Qed.

Lemma transcribe_audio_file_accepted_status E f l w :
  bool_decide (checked_ext f ∈ allowed_extensions) = true ->
  status_of (transcribe_audio_file E f l w).1 <> 400%Z.
Proof.
  intros H.
  assert (Hr : raises_only not_400 (transcribe_audio_file E f l)).
  { unfold transcribe_audio_file. rewrite H.
    change (negb true) with false. cbv beta iota zeta.
    apply (raises_only_try_except_from _ not_400).
    - apply raises_only_bind; [apply raises_only_ret|intros _].
      apply raises_only_bind; [apply raises_only_save_upload_file|intros _].
      apply raises_only_try_except. intros e. apply raises_only_unlink_and_raise.
    - intros [c d|m] He; apply raises_only_raise; [done | apply not_400_500]. }
  specialize (Hr w).
  destruct (transcribe_audio_file E f l w).1 as [a|[c d|m]]; simpl; [done| |done].
  intros ->. by apply (Hr d).
Qed.

End Statuses.

(** Components of the world that the upload handler leaves alone as well. *)
Section UntouchedByUpload.
Import Frame AudioProcessor Endpoints.
Context {B : Type} (proj : world -> B).
Hypothesis proj_set_fs : forall f w, proj (set_fs f w) = proj w.
Hypothesis proj_set_globals :
  forall m p a b c w, proj (set_globals m p a b c w) = proj w.
Hypothesis proj_set_upload_closed :
  forall b w, proj (set_upload_closed b w) = proj w.
Variable E : env.

Lemma keeps_write_chunks k cs : keeps proj (write_chunks E k cs).
Proof.
  revert k. induction cs as [|c cs IH]; intros k w; simpl; [done|].
  destruct (PyStr.truthy c); [|done].
  destruct (write_ok E k); [apply IH | done].
Qed.

Lemma keeps_save_upload_file f p : keeps proj (save_upload_file E f p).
Proof.
  unfold save_upload_file. apply keeps_try_finally.
  - apply keeps_try_except; [|intros e; by apply keeps_unlink_and_raise].
    apply keeps_bind; [intros w; unfold makedirs; by case_match|intros _].
    apply keeps_bind.
    { intros w. unfold open_wb. case_match; simpl; by rewrite ?proj_set_fs. }
    intros _. apply keeps_bind; [apply keeps_write_chunks|intros; apply keeps_ret].
  - intros w. apply proj_set_upload_closed.
Qed.

Lemma keeps_transcribe_audio_file f l : keeps proj (transcribe_audio_file E f l).
Proof.
  unfold transcribe_audio_file.
  apply keeps_try_except; [|intros [c d|m]; apply keeps_raise].
  apply keeps_bind; [apply keeps_if; [apply keeps_raise | apply keeps_ret]|intros _].
  apply keeps_bind; [apply keeps_save_upload_file|intros _].
  apply keeps_try_except.
  - apply keeps_bind; [|intros [t md]; apply keeps_ret].
    by apply keeps_transcribe_audio.
  - intros e. by apply keeps_unlink_and_raise.
Qed.

Lemma keeps_create_journal_from_audio f : keeps proj (create_journal_from_audio E f).
Proof.
  unfold create_journal_from_audio.
  apply keeps_try_except.
  - apply keeps_bind; [apply keeps_transcribe_audio_file|intros t].
    intros w. unfold bind. by destruct (negb _).
  - intros [c d|m]; [apply keeps_raise|].
    apply keeps_bind; [apply keeps_ret | intros; apply keeps_raise].
Qed.

End UntouchedByUpload.

(* ===================================================================== *)
(** * The journal table *)
(* ===================================================================== *)

Section Table.
Import Frame AudioProcessor Endpoints Session.

Lemma foldr_max_upper (l : list Z) k : k ∈ l -> (k <= foldr Z.max 0 l)%Z.
Proof.
  induction l as [|x l IH]; [by intros ?%elem_of_nil|].
  intros [->|H]%elem_of_cons; simpl; [lia|].
  specialize (IH H). lia.
Qed.

Lemma fresh_id_fresh (m : gmap Z journal_row) : m !! fresh_id m = None.
Proof.
  destruct (m !! fresh_id m) as [r|] eqn:H; [|done].
  apply elem_of_map_to_list in H.
  apply (list_elem_of_fmap_2 fst) in H. simpl in H.
  apply foldr_max_upper in H. unfold fresh_id in H. lia.
Qed.

(** Rows present before an INSERT are still there, unchanged, after it. *)
Lemma add_commit_refresh_preserves E p w k row :
  db w !! k = Some row ->
  db (add_commit_refresh E p w).2 !! k = Some row.
Proof.
  intros H. unfold add_commit_refresh.
  destruct (commit_ok E); simpl; [|done].
  rewrite lookup_insert_ne; [done|].
  intros <-. by rewrite fresh_id_fresh in H.
Qed.

Lemma db_set_fs g w : db (set_fs g w) = db w.
Proof. reflexivity. Qed.
Lemma db_set_globals m p a b c w : db (set_globals m p a b c w) = db w.
Proof. reflexivity. Qed.
Lemma db_set_upload_closed b w : db (set_upload_closed b w) = db w.
Proof. reflexivity. Qed.
Lemma clock_set_fs g w : clock (set_fs g w) = clock w.
Proof. reflexivity. Qed.
Lemma clock_set_globals m p a b c w : clock (set_globals m p a b c w) = clock w.
Proof. reflexivity. Qed.

(** What a successful re-transcription went through. *)
Lemma retranscription_success E jid w resp w' :
  transcribe_existing_journal_audio E jid w = (Ok resp, w') ->
  exists row md w1,
    db w !! jid = Some row
    /\ transcribe_audio E (default "" (r_audio_path row)) (Some "en") [] w
       = (Ok (rt_text resp, md), w1)
    /\ w' = if String.eqb (r_content row) (rt_text resp) then w1
            else set_db (alter (update_content (rt_text resp) (clock w1)) jid) w1.
Proof.
  unfold transcribe_existing_journal_audio, try_except, bind, query_first.
  destruct (db w !! jid) as [row|] eqn:Hrow; simpl; [|done].
  destruct (no_audio_path (r_audio_path row)); simpl; [done|].
  destruct (negb _); simpl; [done|].
  destruct (transcribe_audio E _ _ _ w) as [[[t md]|e] w1] eqn:Ht; simpl.
  - unfold set_content_commit. simpl.
    destruct (commit_ok E); simpl; [|done].
    destruct (String.eqb (r_content row) t) eqn:Heq; simpl;
      intros [= <- <-]; simpl; exists row, md, w1; by rewrite Heq.
  - by destruct e.
Qed.

Lemma alter_as_insert (m : gmap Z journal_row) k row f :
  m !! k = Some row -> alter f k m = <[k := f row]> m.
Proof.
  intros H. apply map_eq. intros j.
  destruct (decide (k = j)) as [<-|Hne].
  - by rewrite lookup_alter_eq, lookup_insert_eq, H.
  - by rewrite lookup_alter_ne, lookup_insert_ne.
Qed.

End Table.

(* ===================================================================== *)
(** * The claims about the endpoints *)
(* ===================================================================== *)

Section EndpointClaims.
Import Frame AudioProcessor Endpoints Session Samples.

Lemma create_journal_from_text_unfold E content w :
  (create_journal_from_text E content w).2 = w.
Proof. reflexivity. Qed.

(** C2: [POST /api/journal/text/] never stores an entry.  The handler
    builds [JournalEntryCreate] without the required [user_id], the
    validation error is caught by the handler's own [except], and every
    request, whatever its content, is answered with status 500 while the
    table and the rest of the world stay as they were. *)
Theorem create_journal_from_text_always_fails E content w :
  exists detail,
    create_journal_from_text E content w = (Raise (HTTPException 500 detail), w).
Proof. eexists. reflexivity. Qed.

(** C3, as claimed, fails: a request whose extension is rejected is
    answered with 400 and its upload stream is still open. *)
Lemma upload_not_closed_on_rejection :
  (transcribe_audio_file env_ok upload_txt (Some "en") world0).1 = Raise unsupported
  /\ upload_closed (transcribe_audio_file env_ok upload_txt (Some "en") world0).2
     = false.
Proof. split; reflexivity. Qed.

(** C3, amended: once the extension check has passed, the upload stream is
    closed on every exit path of [POST /api/transcribe/] (success, write
    failure, transcription failure); a request rejected by the check is
    answered with 400 and the handler leaves the stream as it was. *)
Theorem upload_closed_once_accepted E f l w :
  let '(r, w') := transcribe_audio_file E f l w in
  if bool_decide (checked_ext f ∈ allowed_extensions)
  then upload_closed w' = true
  else r = Raise unsupported /\ upload_closed w' = upload_closed w.
Proof.
  destruct (transcribe_audio_file E f l w) as [r w'] eqn:H.
  destruct (bool_decide _) eqn:Hd.
  - pose proof (transcribe_audio_file_accepted_closes E f l w Hd) as Hc.
    by rewrite H in Hc.
  - rewrite transcribe_audio_file_rejected in H by done.
    by injection H as <- <-.
Qed.

(** C4: a filename whose lowercased extension is outside the allow-list is
    answered with 400 and storage is left as it was; a filename whose
    extension is in the list is never answered with 400. *)
Theorem extension_check_decides_400 E f l w :
  let '(r, w') := transcribe_audio_file E f l w in
  if bool_decide (checked_ext f ∈ allowed_extensions)
  then status_of r <> 400%Z
  else status_of r = 400%Z /\ fs w' = fs w.
Proof.
  destruct (transcribe_audio_file E f l w) as [r w'] eqn:H.
  destruct (bool_decide _) eqn:Hd.
  - pose proof (transcribe_audio_file_accepted_status E f l w Hd) as Hs.
    by rewrite H in Hs.
  - rewrite transcribe_audio_file_rejected in H by done.
    by injection H as <- <-.
Qed.



(** C8: a successful re-transcription changes the table at the entry's
    key only, and there only the content, which becomes the returned text,
    and the update timestamp; owner, audio reference and creation time are
    those of the old row.  No other operation changes a row that exists:
    neither the transcription endpoint, nor the two endpoints that create
    entries, nor the creation endpoint of [main.py]. *)
Theorem only_retranscription_mutates E jid w :
  (forall resp w',
     transcribe_existing_journal_audio E jid w = (Ok resp, w') ->
     exists row,
       db w !! jid = Some row
       /\ db w' = <[jid := {| r_user_id := r_user_id row;
                              r_content := rt_text resp;
                              r_audio_path := r_audio_path row;
                              r_created_at := r_created_at row;
                              r_updated_at :=
                                if String.eqb (r_content row) (rt_text resp)
                                then r_updated_at row else clock w |}]> (db w))
  /\ (forall k row, db w !! k = Some row ->
        (forall f l, db (transcribe_audio_file E f l w).2 !! k = Some row)
        /\ (forall f, db (create_journal_from_audio E f w).2 !! k = Some row)
        /\ (forall c, db (create_journal_from_text E c w).2 !! k = Some row)
        /\ (forall e, db (Main.create_journal_entry E e w).2 !! k = Some row)).
Proof.
  split.
  - intros resp w' H.
    destruct (retranscription_success _ _ _ _ _ H) as (row & md & w1 & Hr & Ht & ->).
    exists row. split; [done|].
    pose proof (keeps_transcribe_audio db db_set_fs db_set_globals E
                  (default "" (r_audio_path row)) (Some "en") [] w) as Hdb.
    pose proof (keeps_transcribe_audio clock clock_set_fs clock_set_globals E
                  (default "" (r_audio_path row)) (Some "en") [] w) as Hck.
    rewrite Ht in Hdb, Hck. simpl in Hdb, Hck.
    destruct (String.eqb (r_content row) (rt_text resp)) eqn:Heq.
    + apply String.eqb_eq in Heq. rewrite Hdb.
      symmetry. apply insert_id. rewrite Hr, <- Heq. by destruct row.
    + simpl. rewrite Hdb, Hck.
      by rewrite (alter_as_insert _ _ row).
  - intros k row Hk. repeat split.
    + intros f l.
      by rewrite (keeps_transcribe_audio_file db db_set_fs db_set_globals
                    db_set_upload_closed E f l w).
    + intros f.
      by rewrite (keeps_create_journal_from_audio db db_set_fs db_set_globals
                    db_set_upload_closed E f w).
    + intros c. by rewrite create_journal_from_text_unfold.
    + intros e. unfold Main.create_journal_entry, bind. simpl.
      destruct (Main.audio_path e); simpl; by apply add_commit_refresh_preserves.
Qed.

Lemma only_retranscription_mutates_witness :
  exists row,
    db world1 !! 1%Z = Some row
    /\ r_audio_path row = Some "uploads/audio/note.wav"
    /\ db (transcribe_existing_journal_audio env_ok 1 world1).2 !! 1%Z
       = Some {| r_user_id := 1; r_content := "hello world";
                 r_audio_path := Some "uploads/audio/note.wav";
                 r_created_at := 10; r_updated_at := 100 |}.
Proof.
  destruct (transcribe_existing_journal_audio env_ok 1 world1) as [r w'] eqn:H.
  assert (Hr : exists resp, r = Ok resp /\ rt_text resp = "hello world").
  { apply (f_equal fst) in H. simpl in H. subst r. eexists. split; vm_compute; reflexivity. }
  destruct Hr as (resp & -> & Htext).
  destruct (proj1 (only_retranscription_mutates env_ok 1 world1) resp w' H)
    as (row & Hrow & Hdb).
  exists row. split; [exact Hrow|].
  assert (Hrow' : row = {| r_user_id := 1; r_content := "Old text.";
                           r_audio_path := Some "uploads/audio/note.wav";
                           r_created_at := 10; r_updated_at := 10 |}).
  { vm_compute in Hrow. by injection Hrow as <-. }
  subst row. split; [reflexivity|].
  simpl. rewrite Hdb, lookup_insert_eq, Htext. reflexivity.
Defined.

End EndpointClaims.

(* ===================================================================== *)
(** * More about the transcription service *)
(* ===================================================================== *)

(** Case analysis on the globals and on what the model hub answers. *)
Ltac load_outcomes E w :=
  unfold AudioProcessor.load_glm_model, bind, get, try_except, ret, raise,
    AudioProcessor.assign_processor_from_pretrained,
    AudioProcessor.assign_model_from_pretrained,
    AudioProcessor.assign_model_to_cuda;
  destruct (g_model w) as [?m|] eqn:?Hm, (g_processor w) as [?p|] eqn:?Hp;
  simpl;
  destruct (processor_from_pretrained_ok E) eqn:?Hpo,
    (model_from_pretrained_ok E) eqn:?Hmo,
    (cuda_is_available E) eqn:?Hcu, (model_to_cuda_ok E) eqn:?Hco;
  simpl.

Section ServiceEffects.
Import Frame AudioProcessor Process Scenarios Derived.

Lemma fs_set_globals m p a b c w : fs (set_globals m p a b c w) = fs w.
Proof. reflexivity. Qed.

Lemma load_glm_model_fs E w : fs (load_glm_model E w).2 = fs w.
Proof. apply (keeps_load_glm_model fs fs_set_globals). Qed.

Lemma load_glm_model_plain E : raises_only plain (load_glm_model E).
Proof.
  intros w. load_outcomes E w; rewrite ?Hm, ?Hp; simpl; unfold plain; eauto.
Qed.

(** The metadata describe the audio after the switch to mono, 16 kHz. *)
Lemma metadata_normalized l a :
  let a1 := if (1 <? channels a)%Z then set_channels 1 a else a in
  let a2 := if negb (frame_rate a1 =? 16000)%Z
            then set_frame_rate 16000 a1 else a1 in
  {| md_language := l; md_model := "GLM-ASR-Nano-2512";
     md_duration_ms := duration_ms a2; md_sample_rate := frame_rate a2;
     md_channels := channels a2 |}
  = {| md_language := l; md_model := "GLM-ASR-Nano-2512";
       md_duration_ms := duration_ms a; md_sample_rate := 16000;
       md_channels := if (1 <? channels a)%Z then 1%Z else channels a |}.
Proof.
  cbv zeta. destruct (1 <? channels a)%Z; simpl;
    destruct (frame_rate a =? 16000)%Z eqn:Hr; simpl; try reflexivity;
    apply Z.eqb_eq in Hr; by rewrite Hr.
Qed.

(** What a call of [transcribe_audio] that returns went through. *)
Lemma transcribe_audio_returns E p l kw w t md w' :
  transcribe_audio E p l kw w = (Ok (t, md), w') ->
  exists m pr w1 a,
    load_glm_model E w = (Ok (Some m, Some pr), w1)
    /\ w' = (if is_wav p then w1 else set_fs (fun s => s ∪ {[wav_path p]}) w1)
    /\ p ∈ fs w
    /\ decode E (if is_wav p then p else wav_path p) = Some a
    /\ generate E (if is_wav p then p else wav_path p) = Some t
    /\ md = {| md_language := l; md_model := "GLM-ASR-Nano-2512";
               md_duration_ms := duration_ms a; md_sample_rate := 16000;
               md_channels := if (1 <? channels a)%Z then 1%Z else channels a |}.
Proof.
  unfold transcribe_audio, try_finally, try_except, bind.
  change (cleanup_temp (transcribe_audio_locals p l)) with (ret (A:=unit) tt).
  fold (is_wav p).
  destruct (load_glm_model E w) as [[[m pr]|e] w1] eqn:Hl; simpl; [|done].
  destruct (load_glm_model_ok _ _ _ _ Hl) as (m0 & p0 & [= -> ->] & _).
  pose proof (load_glm_model_fs E w) as Hfs. rewrite Hl in Hfs. simpl in Hfs.
  destruct (is_wav p) eqn:Hw; simpl.
  - unfold AudioSegment_from_file, processor_call, generate_and_decode, raise, ret.
    destruct (bool_decide (p ∈ fs w1)) eqn:Hin; simpl; [|done].
    apply bool_decide_eq_true in Hin. rewrite Hfs in Hin.
    destruct (decode E p) as [a|] eqn:Hd; simpl; [|done].
    destruct (processor_call_ok E); simpl; [|done].
    destruct (generate E p) as [t'|] eqn:Hg; simpl; [|done].
    intros [= <- <- <-]. exists m0, p0, w1, a. repeat split; try done.
    apply metadata_normalized.
  - unfold convert_audio_format, try_except, bind, AudioSegment_from_file,
      AudioSegment_export, processor_call, generate_and_decode, raise, ret.
    change ((PyStr.splitext p).1 +:+ "." +:+ "wav") with (wav_path p).
    destruct (bool_decide (p ∈ fs w1)) eqn:Hin; simpl; [|done].
    apply bool_decide_eq_true in Hin. rewrite Hfs in Hin.
    destruct (decode E p) as [a0|]; simpl; [|done].
    destruct (export_ok E); simpl; [|done].
    destruct (bool_decide (wav_path p ∈ fs w1 ∪ {[wav_path p]})); simpl; [|done].
    destruct (decode E (wav_path p)) as [a|] eqn:Hd; simpl; [|done].
    destruct (processor_call_ok E); simpl; [|done].
    destruct (generate E (wav_path p)) as [t'|] eqn:Hg; simpl; [|done].
    intros [= <- <- <-]. exists m0, p0, w1, a. repeat split; try done.
    apply metadata_normalized.
Qed.

Lemma transcribe_audio_outcome_lemma E p l kw w t md w' :
  transcribe_audio E p l kw w = (Ok (t, md), w') ->
  md_language md = l /\ md_sample_rate md = 16000%Z.
Proof.
  intros H. destruct (transcribe_audio_returns _ _ _ _ _ _ _ _ H)
    as (m & pr & w1 & a & _ & _ & _ & _ & _ & ->). done.
Qed.

Lemma transcribe_audio_fs E p l kw w :
  fs (transcribe_audio E p l kw w).2 = fs w
  \/ (is_wav p = false
      /\ fs (transcribe_audio E p l kw w).2 = fs w ∪ {[wav_path p]}).
Proof.
  unfold transcribe_audio, try_finally, try_except, bind.
  change (cleanup_temp (transcribe_audio_locals p l)) with (ret (A:=unit) tt).
  fold (is_wav p).
  pose proof (load_glm_model_fs E w) as Hfs.
  destruct (load_glm_model E w) as [[[m pr]|e] w1]; simpl in *; [|by left].
  unfold convert_audio_format, try_except, bind, AudioSegment_from_file,
    AudioSegment_export, processor_call, generate_and_decode, raise, ret.
  change ((PyStr.splitext p).1 +:+ "." +:+ "wav") with (wav_path p).
  destruct (is_wav p); simpl.
  - left.
    destruct (bool_decide (p ∈ fs w1)); simpl; [|done].
    destruct (decode E p); simpl; [|done].
    destruct pr; simpl; [|done].
    destruct (processor_call_ok E); simpl; [|done].
    destruct m; simpl; [|done].
    by destruct (generate E p).
  - destruct (bool_decide (p ∈ fs w1)); simpl; [|by left].
    destruct (decode E p); simpl; [|by left].
    destruct (export_ok E); simpl; [|by left].
    right. split; [done|]. rewrite <- Hfs.
    destruct (bool_decide (wav_path p ∈ _)); simpl; [|done].
    destruct (decode E (wav_path p)); simpl; [|done].
    destruct pr; simpl; [|done].
    destruct (processor_call_ok E); simpl; [|done].
    destruct m; simpl; [|done].
    by destruct (generate E (wav_path p)).
Qed.

Lemma raises_only_reraise {A} (P : exn -> Prop) (m : M A) :
  raises_only P m -> raises_only P (try_except m (fun e => raise e)).
Proof.
  intros H. apply (raises_only_try_except_from P P); [done|].
  intros e He. by apply raises_only_raise.
Qed.

Lemma transcribe_audio_plain E p l kw :
  raises_only plain (transcribe_audio E p l kw).
Proof.
  assert (Hex : forall m, plain (Exception m)) by (intros m; by exists m).
  assert (Hff : forall q, raises_only plain (AudioSegment_from_file E q)).
  { intros q w. unfold AudioSegment_from_file.
    destruct (bool_decide _); [destruct (decode E q)|]; simpl; auto. }
  unfold transcribe_audio.
  apply raises_only_try_finally; [|by intros w].
  apply raises_only_reraise.
  apply raises_only_bind; [apply load_glm_model_plain|intros [m pr]].
  apply raises_only_bind.
  { apply raises_only_if; [|apply raises_only_ret].
    apply raises_only_reraise.
    apply raises_only_bind; [apply Hff|intros a].
    apply raises_only_bind; [|intros; apply raises_only_ret].
    intros w. unfold AudioSegment_export.
    destruct (export_ok E); simpl; auto. }
  intros q. apply raises_only_bind; [apply Hff|intros a].
  apply raises_only_bind.
  { intros w. unfold processor_call.
    destruct pr; [destruct (processor_call_ok E)|]; simpl; auto. }
  intros _. apply raises_only_bind; [|intros; apply raises_only_ret].
  intros w. unfold generate_and_decode.
  destruct m; [destruct (generate E q)|]; simpl; auto.
Qed.

(** X1: [transcribe_audio] never removes a path from storage.  A call that
    returns leaves storage unchanged on a WAV input and leaves the
    converted WAV behind on any other input; a call that raises has added
    at most that converted WAV. *)
Theorem transcribe_audio_storage E p l kw w :
  let '(r, w') := transcribe_audio E p l kw w in
  match r with
  | Ok _ => fs w' = if is_wav p then fs w else fs w ∪ {[wav_path p]}
  | Raise _ =>
      fs w' = fs w \/ (is_wav p = false /\ fs w' = fs w ∪ {[wav_path p]})
  end.
Proof.
  pose proof (transcribe_audio_fs E p l kw w) as Hfs.
  destruct (transcribe_audio E p l kw w) as [[[t md]|e] w'] eqn:H; [|done].
  destruct (transcribe_audio_returns _ _ _ _ _ _ _ _ H)
    as (m & pr & w1 & a & Hl & -> & _).
  pose proof (load_glm_model_fs E w) as Hw1. rewrite Hl in Hw1. simpl in Hw1.
  destruct (is_wav p); simpl; by rewrite Hw1.
Qed.

(** X2: A call of [transcribe_audio] that returns had its input on storage and
    returns what the model produced for the WAV it read; the metadata echo
    the language, name the model, and describe mono audio at 16 kHz; both
    module globals are set afterwards.  A call that raises never raises an
    [HTTPException]. *)
Theorem transcribe_audio_outcome E p l kw w :
  let '(r, w') := transcribe_audio E p l kw w in
  match r with
  | Ok (t, md) =>
      p ∈ fs w
      /\ generate E (if is_wav p then p else wav_path p) = Some t
      /\ md_language md = l
      /\ md_model md = "GLM-ASR-Nano-2512"
      /\ md_sample_rate md = 16000%Z
      /\ (md_channels md <= 1)%Z
      /\ is_Some (g_model w') /\ is_Some (g_processor w')
  | Raise e => plain e
  end.
Proof.
  pose proof (transcribe_audio_plain E p l kw w) as Hp.
  destruct (transcribe_audio E p l kw w) as [[[t md]|e] w'] eqn:H; [|done].
  destruct (transcribe_audio_returns _ _ _ _ _ _ _ _ H)
    as (m & pr & w1 & a & Hl & -> & Hin & Hd & Hg & ->).
  destruct (load_glm_model_ok _ _ _ _ Hl) as (m' & pr' & _ & Hm & Hpr).
  simpl. repeat split; try done.
  - destruct (1 <? channels a)%Z eqn:Hc; [done|]. by apply Z.ltb_ge in Hc.
  - destruct (is_wav p); simpl; by rewrite Hm.
  - destruct (is_wav p); simpl; by rewrite Hpr.
Qed.

End ServiceEffects.

Section LoadOutcomes.
Import Frame AudioProcessor Process Scenarios Derived.

(** X3: While a global is unset, [load_glm_model] returns exactly when every
    step of the load succeeds in the surroundings; it then returns the two
    globals it has just set, with the model on the GPU exactly when one is
    available.  When it raises, the exception is the one of the failed
    step and not an [HTTPException]. *)
Theorem load_glm_model_outcome E w :
  let '(r, w') := load_glm_model E w in
  if bool_decide (is_Some (g_model w)) && bool_decide (is_Some (g_processor w))
  then r = Ok (g_model w, g_processor w) /\ w' = w
  else match r with
       | Ok (m, p) =>
           load_succeeds E = true
           /\ m = g_model w' /\ p = g_processor w' /\ is_Some p
           /\ model_device_cuda <$> m = Some (cuda_is_available E)
       | Raise e => load_succeeds E = false /\ plain e
       end.
Proof.
  unfold load_succeeds, plain.
  load_outcomes E w; rewrite ?Hm, ?Hp; simpl; eauto 10.
Qed.

(** X4: When the model was downloaded but could not be moved to the GPU, the
    call raises and yet leaves both globals set, with the model on the
    CPU; every later call returns that model as it is, so the move is
    never tried again. *)
Theorem cuda_failure_is_not_retried E w :
  g_model w = None ->
  processor_from_pretrained_ok E = true ->
  model_from_pretrained_ok E = true ->
  cuda_is_available E = true ->
  model_to_cuda_ok E = false ->
  let '(r, w1) := load_glm_model E w in
  (exists e, r = Raise e)
  /\ exists m p,
       g_model w1 = Some m /\ g_processor w1 = Some p
       /\ model_device_cuda m = false
       /\ forall E', load_glm_model E' w1 = (Ok (Some m, Some p), w1).
Proof.
  intros Hm Hpo Hmo Hcu Hco.
  destruct (load_glm_model E w) as [r w1] eqn:H. revert H.
  unfold load_glm_model, bind, get, try_except, ret, raise,
    assign_processor_from_pretrained, assign_model_from_pretrained,
    assign_model_to_cuda.
  rewrite Hm, Hpo, Hmo, Hcu, Hco. simpl.
  intros [= <- <-]. split; [eauto|].
  eexists _, _. split; [reflexivity|]. split; [reflexivity|].
  split; [reflexivity|]. intros E'.
  by apply load_glm_model_loaded.
Qed.

Lemma cuda_failure_is_not_retried_witness :
  exists m,
    g_model (load_glm_model env_cuda_fails Samples.world0).2 = Some m
    /\ model_device_cuda m = false
    /\ (load_glm_model env_cuda_ok
          (load_glm_model env_cuda_fails Samples.world0).2).1
       = Ok (Some m, g_processor (load_glm_model env_cuda_fails Samples.world0).2).
Proof.
  pose proof (cuda_failure_is_not_retried env_cuda_fails Samples.world0
                eq_refl eq_refl eq_refl eq_refl eq_refl) as H.
  destruct (load_glm_model env_cuda_fails Samples.world0) as [r w1].
  destruct H as (_ & m & p & Hm & Hp & Hd & Hl).
  exists m. simpl. rewrite (Hl env_cuda_ok), Hp. by repeat split.
Defined.

End LoadOutcomes.

(* ===================================================================== *)
(** * More about the endpoints *)
(* ===================================================================== *)

Section UploadOutcomes.
Import Frame AudioProcessor Endpoints Session Scenarios Derived.

Lemma write_chunks_result E k cs w :
  write_chunks E k cs w = (Ok tt, w)
  \/ exists m, write_chunks E k cs w = (Raise (Exception m), w).
Proof.
  revert k. induction cs as [|c cs IH]; intros k; simpl; [by left|].
  destruct (PyStr.truthy c); [|by left].
  destruct (write_ok E k); [apply IH | right; by eexists].
Qed.

Lemma union_difference_same (s : gset string) x :
  (s ∪ {[x]}) ∖ {[x]} = s ∖ {[x]}.
Proof.
  apply set_eq. intros y.
  rewrite !elem_of_difference, elem_of_union. tauto.
Qed.

Lemma difference_absent (s : gset string) x : x ∉ s -> s = s ∖ {[x]}.
Proof.
  intros Hx. apply set_eq. intros y.
  rewrite elem_of_difference, elem_of_singleton.
  split; [|tauto]. intros Hy. split; [done|]. by intros ->.
Qed.

Lemma elem_of_added (s : gset string) x : x ∈ s ∪ {[x]}.
Proof. apply elem_of_union_r. by apply elem_of_singleton. Qed.

Lemma save_upload_file_cases E f dest w :
  let '(r, w') := save_upload_file E f dest w in
  upload_closed w' = true
  /\ match r with
     | Ok d => d = dest /\ fs w' = fs w ∪ {[dest]}
     | Raise e => (exists d, e = HTTPException 500 d) /\ fs w' = fs w ∖ {[dest]}
     end.
Proof.
  unfold save_upload_file, try_finally, try_except, bind, makedirs, open_wb,
    upload_close, modify, path_exists, unlink, raise, ret.
  destruct (makedirs_ok E); simpl.
  - destruct (open_ok E); simpl.
    + destruct (write_chunks_result E 0 (chunks f)
                  (set_fs (fun s => s ∪ {[dest]}) w)) as [->|[m ->]]; simpl.
      * done.
      * rewrite bool_decide_eq_true_2 by apply elem_of_added. simpl.
        rewrite bool_decide_eq_true_2 by apply elem_of_added. simpl.
        split; [done|]. split; [eauto|]. apply union_difference_same.
    + case_bool_decide; simpl.
      * rewrite bool_decide_eq_true_2 by done. simpl. eauto.
      * split; [done|]. split; [eauto|]. by apply difference_absent.
  - case_bool_decide; simpl.
    + rewrite bool_decide_eq_true_2 by done. simpl. eauto.
    + split; [done|]. split; [eauto|]. by apply difference_absent.
Qed.


(** The three ways a request that passed the extension check can end. *)
Lemma transcribe_audio_file_cases E f l w :
  bool_decide (checked_ext f ∈ allowed_extensions) = true ->
  let fp := stored_path E f in
  let '(r, w') := transcribe_audio_file E f l w in
  match r with
  | Ok resp =>
      exists w1 w2 md,
        save_upload_file E f fp w = (Ok fp, w1)
        /\ transcribe_audio E fp l [("beam_size", VInt 5)] w1
           = (Ok (tr_text resp, md), w2)
        /\ resp = {| tr_status := "success"; tr_text := tr_text resp;
                     tr_audio_path := fp; tr_metadata := md |}
        /\ w' = w2
  | Raise e =>
      (exists d, e = HTTPException 500 d) /\ fp ∉ fs w'
  end.
Proof.
  intros Hacc. unfold transcribe_audio_file, try_except at 1, bind at 1.
  rewrite Hacc. change (negb true) with false. cbv beta iota zeta.
  unfold ret at 1. unfold bind at 1. fold (stored_path E f).
  pose proof (save_upload_file_cases E f (stored_path E f) w) as Hs.
  destruct (save_upload_file E f (stored_path E f) w) as [[d|e] w1].
  - destruct Hs as (_ & -> & Hfs1).
    unfold try_except, bind.
    pose proof (transcribe_audio_plain E (stored_path E f) l
                  [("beam_size", VInt 5)] w1) as Hpl.
    destruct (transcribe_audio E (stored_path E f) l _ w1)
      as [[[t md]|e] w2] eqn:Ht; simpl.
    + by exists w1, w2, md.
    + destruct Hpl as [m ->]. unfold path_exists, unlink, raise, ret.
      destruct (bool_decide (stored_path E f ∈ fs w2)) eqn:Hin; simpl;
        rewrite ?Hin; simpl; (split; [eauto|]).
      * intros [_ Hn]%elem_of_difference. apply Hn. by apply elem_of_singleton.
      * by apply bool_decide_eq_false in Hin.
  - destruct Hs as (_ & [d ->] & Hfs1). simpl. split; [eauto|].
    rewrite Hfs1. intros [_ Hn]%elem_of_difference. apply Hn.
    by apply elem_of_singleton.
Qed.

(** X6: A request that passed the extension check either returns the
    transcription, with status [success], the language it was given and
    the path under which the upload is now stored, or it is answered with
    500 and the upload is not on storage.  A rejected request changes
    nothing at all. *)
Theorem transcribe_audio_file_outcome E f l w :
  let '(r, w') := transcribe_audio_file E f l w in
  if bool_decide (checked_ext f ∈ allowed_extensions) then
    match r with
    | Ok resp =>
        tr_status resp = "success"
        /\ tr_audio_path resp = stored_path E f
        /\ stored_path E f ∈ fs w'
        /\ md_language (tr_metadata resp) = l
        /\ md_sample_rate (tr_metadata resp) = 16000%Z
    | Raise e => (exists d, e = HTTPException 500 d) /\ stored_path E f ∉ fs w'
    end
  else r = Raise unsupported /\ w' = w.
Proof.
  destruct (bool_decide _) eqn:Hacc.
  - pose proof (transcribe_audio_file_cases E f l w Hacc) as H. cbv zeta in H.
    destruct (transcribe_audio_file E f l w) as [[resp|e] w']; [|done].
    destruct H as (w1 & w2 & md & Hs & Ht & Hr & ->).
    pose proof (save_upload_file_cases E f (stored_path E f) w) as Hc.
    rewrite Hs in Hc. destruct Hc as (_ & _ & Hfs1).
    pose proof (transcribe_audio_outcome_lemma _ _ _ _ _ _ _ _ Ht) as (Hl & Hr16).
    pose proof (transcribe_audio_fs E (stored_path E f) l
                  [("beam_size", VInt 5)] w1) as Hfs2.
    rewrite Ht in Hfs2. simpl in Hfs2.
    rewrite Hr. simpl. repeat split; try done.
    assert (Hin : stored_path E f ∈ fs w1) by (rewrite Hfs1; apply elem_of_added).
    destruct Hfs2 as [->|[_ ->]]; [done|]. by apply elem_of_union_l.
  - rewrite transcribe_audio_file_rejected by done. done.
Qed.

End UploadOutcomes.

Section JournalOutcomes.
Import Frame AudioProcessor Endpoints Session Scenarios Derived.

(** X7: [POST /api/journal/audio/] never returns an entry and never changes
    the table.  It passes on the failure of the transcription step; when
    that step succeeds it fails with 500 on building the entry and leaves
    the world as the transcription step left it, so the upload stays on
    storage although no entry refers to it. *)
Theorem create_journal_from_audio_outcome E f w :
  let '(r, w') := create_journal_from_audio E f w in
  db w' = db w
  /\ match transcribe_audio_file E f (Some "en") w with
     | (Ok resp, w1) =>
         (exists d, r = Raise (HTTPException 500 d))
         /\ w' = w1 /\ tr_audio_path resp ∈ fs w'
     | (Raise e, w1) => r = Raise e /\ w' = w1
     end.
Proof.
  pose proof (keeps_create_journal_from_audio db db_set_fs db_set_globals
                db_set_upload_closed E f w) as Hdb.
  destruct (create_journal_from_audio E f w) as [r w'] eqn:H.
  split; [done|]. clear Hdb. revert H.
  unfold create_journal_from_audio, try_except, bind.
  destruct (bool_decide (checked_ext f ∈ allowed_extensions)) eqn:Hacc.
  - pose proof (transcribe_audio_file_cases E f (Some "en") w Hacc) as Hc.
    cbv zeta in Hc.
    destruct (transcribe_audio_file E f (Some "en") w) as [[resp|e] w1].
    + destruct Hc as (w0 & w2 & md & Hs & Ht & Hr & ->).
      rewrite Hr. simpl. intros [= <- <-]. split; [eauto|]. split; [done|].
      pose proof (save_upload_file_cases E f (stored_path E f) w) as Hsc.
      rewrite Hs in Hsc. destruct Hsc as (_ & _ & Hfs1).
      pose proof (transcribe_audio_fs E (stored_path E f) (Some "en")
                    [("beam_size", VInt 5)] w0) as Hfs2.
      rewrite Ht in Hfs2. simpl in Hfs2.
      assert (Hin : stored_path E f ∈ fs w0) by (rewrite Hfs1; apply elem_of_added).
      destruct Hfs2 as [->|[_ ->]]; [done|]. by apply elem_of_union_l.
    + destruct Hc as [[d ->] _]. by intros [= <- <-].
  - rewrite transcribe_audio_file_rejected by done. by intros [= <- <-].
Qed.

(** X8: [GET /api/journal/{id}/transcribe] is all or nothing on the table.  A
    request that returns reports [success] and the identifier it was
    given, and the stored content is the text it returns; a request that
    fails is answered with 404, 400 or 500 and leaves the table as it
    was. *)
Theorem retranscription_outcome E jid w :
  let '(r, w') := transcribe_existing_journal_audio E jid w in
  match r with
  | Ok resp =>
      rt_status resp = "success" /\ rt_journal_id resp = jid
      /\ r_content <$> db w' !! jid = Some (rt_text resp)
  | Raise e =>
      db w' = db w
      /\ exists c d, e = HTTPException c d /\ (c = 404 \/ c = 400 \/ c = 500)%Z
  end.
Proof.
  destruct (transcribe_existing_journal_audio E jid w) as [[resp|e] w'] eqn:H.
  - destruct (retranscription_success _ _ _ _ _ H)
      as (row & md & w1 & Hrow & Ht & ->).
    pose proof (keeps_transcribe_audio db db_set_fs db_set_globals E
                  (default "" (r_audio_path row)) (Some "en") [] w) as Hdb.
    rewrite Ht in Hdb. simpl in Hdb.
    assert (rt_status resp = "success" /\ rt_journal_id resp = jid) as [? ?].
    { revert H.
      unfold transcribe_existing_journal_audio, try_except, bind, query_first.
      rewrite Hrow. simpl.
      destruct (no_audio_path _); simpl; [done|].
      destruct (negb _); simpl; [done|].
      rewrite Ht. simpl.
      destruct (set_content_commit E _ _ w1) as [[u|e] w3]; simpl;
        [by intros [= <- _] | by destruct e]. }
    repeat split; try done.
    destruct (String.eqb (r_content row) (rt_text resp)) eqn:Heq.
    + apply String.eqb_eq in Heq. by rewrite Hdb, Hrow, <- Heq.
    + simpl. by rewrite Hdb, lookup_alter_eq, Hrow.
  - revert H.
    unfold transcribe_existing_journal_audio, try_except, bind, query_first.
    destruct (db w !! jid) as [row|]; simpl;
      [|intros [= <- <-]; split; [done|]; eauto 10].
    destruct (no_audio_path _); simpl;
      [intros [= <- <-]; split; [done|]; eauto 10|].
    destruct (negb _); simpl;
      [intros [= <- <-]; split; [done|]; eauto 10|].
    pose proof (keeps_transcribe_audio db db_set_fs db_set_globals E
                  (default "" (r_audio_path row)) (Some "en") [] w) as Hdb.
    pose proof (transcribe_audio_plain E (default "" (r_audio_path row))
                  (Some "en") [] w) as Hpl.
    destruct (transcribe_audio E _ _ _ w) as [[[t md]|e0] w1]; simpl in *.
    + unfold set_content_commit.
      destruct (commit_ok E); simpl.
      * by destruct (String.eqb _ t).
      * intros [= <- <-]. split; [done|]. eauto 10.
    + destruct Hpl as [m ->]. simpl. intros [= <- <-]. split; [done|]. eauto 10.
Qed.


(** X10: The way both creation endpoints of [audio.py] build an entry cannot
    succeed for any keyword arguments: either the schema rejects them, or
    the dictionary of the schema object carries [user_id], which the call
    of the [JournalEntry] constructor names a second time. *)
Theorem entry_construction_always_raises kwargs w :
  exists m,
    bind (lift (Schemas.JournalEntryCreate_init kwargs)) (fun journal_data =>
      bind (lift (call_kwargs (Schemas.dict journal_data) [("user_id", VInt 1)]))
        (fun kw => lift (JournalEntry_init kw))) w
    = (Raise (Exception m), w).
Proof.
  unfold bind, lift, Schemas.JournalEntryCreate_init.
  destruct (assoc "content" kwargs) as [[]|]; simpl; eauto;
    destruct (assoc "user_id" kwargs) as [[]|]; simpl; eauto;
    destruct (assoc "audio_path" kwargs) as [[]|]; simpl; eauto.
Qed.

(** X11: A schema object is rebuilt from its own dictionary. *)
Theorem JournalEntryCreate_dict_roundtrip j :
  Schemas.JournalEntryCreate_init (Schemas.dict j) = Ok j.
Proof. destruct j as [c [a|] u]; reflexivity. Qed.

End JournalOutcomes.

(* ===================================================================== *)
(** * More about the text normalizer *)
(* ===================================================================== *)

Section NormalizerFacts.
Import PyStr NormalForm NormalizerSpec AudioProcessor Derived.







(** X14: the result of [clean_text] depends on the words of the input
    only: how much
    whitespace separates or surrounds them makes no difference. *)
Theorem clean_text_sees_words_only x x' :
  split x = split x' -> clean_text x = clean_text x'.
Proof.
  intros H.
  assert (Hg : forall z, clean_text z =
             let t := capitalize_first (jn z) in
             if truthy t then (if ends_sentence t then t else t +:+ ".") else "").
  { intros z. rewrite clean_text_unfold. by destruct z. }
  rewrite !Hg. unfold jn. by rewrite H.
Qed.

Lemma clean_text_sees_words_only_witness :
  clean_text (String "009" "good   morning ") = clean_text "good morning".
Proof. apply clean_text_sees_words_only. reflexivity. Defined.







End NormalizerFacts.

(* ===================================================================== *)
(** * Extensions and paths *)
(* ===================================================================== *)

Section Extensions.
Import Frame PyStr AudioProcessor Endpoints Derived.

Lemma take_drop n s : take n s +:+ drop n s = s.
Proof.
  revert s. induction n as [|n IH]; intros [|c s]; simpl; try done.
  by rewrite append_String, IH.
Qed.

Lemma take_app_length s t : take (String.length s) (s +:+ t) = s.
Proof.
  induction s as [|c s IH]; [by destruct t|].
  rewrite append_String. simpl. by rewrite IH.
Qed.

Lemma drop_app_length s t : drop (String.length s) (s +:+ t) = t.
Proof. induction s as [|c s IH]; [done|]. by rewrite append_String. Qed.

Lemma drop_app_le n s t :
  n <= String.length s -> drop n (s +:+ t) = drop n s +:+ t.
Proof.
  revert s. induction n as [|n IH]; intros s H; [done|].
  destruct s as [|c s]; simpl in H; [lia|].
  rewrite append_String. simpl. apply IH. lia.
Qed.

Lemma length_drop n s : String.length (drop n s) = String.length s - n.
Proof. revert s. induction n as [|n IH]; intros [|c s]; simpl; auto. Qed.

Lemma occurs_drop c n s : occurs c s = false -> occurs c (drop n s) = false.
Proof.
  revert s. induction n as [|n IH]; intros [|d s]; simpl; try done.
  intros [_ H]%orb_false_iff. by apply IH.
Qed.

Lemma rfind_from_absent i c s : occurs c s = false -> rfind_from i c s = (-1)%Z.
Proof.
  revert i. induction s as [|d s IH]; intros i; simpl; [done|].
  intros [Hd Hs]%orb_false_iff. by rewrite IH, Hd.
Qed.

Lemma rfind_from_range i c s :
  (0 <= i)%Z ->
  rfind_from i c s = (-1)%Z
  \/ (i <= rfind_from i c s < i + Z.of_nat (String.length s))%Z.
Proof.
  revert i. induction s as [|d s IH]; intros i Hi; simpl; [by left|].
  destruct (IH (i + 1)%Z ltac:(lia)) as [->|Hr].
  - simpl. destruct (Ascii.eqb d c); [right; lia | by left].
  - destruct (0 <=? _)%Z eqn:Hk; [right; lia|]. apply Z.leb_gt in Hk. lia.
Qed.

Lemma rfind_from_none i c s :
  (0 <= i)%Z -> rfind_from i c s = (-1)%Z -> occurs c s = false.
Proof.
  revert i. induction s as [|d s IH]; intros i Hi; simpl; [done|].
  destruct (rfind_from_range (i + 1) c s ltac:(lia)) as [Hn|Hr].
  - rewrite Hn. simpl. destruct (Ascii.eqb d c); [lia|].
    intros _. by apply (IH (i + 1)%Z); [lia|].
  - destruct (0 <=? _)%Z eqn:Hk; [lia|]. apply Z.leb_gt in Hk. lia.
Qed.

Lemma rfind_from_app_absent i c s t :
  occurs c t = false -> rfind_from i c (s +:+ t) = rfind_from i c s.
Proof.
  intros Ht. revert i. induction s as [|d s IH]; intros i.
  - by apply rfind_from_absent.
  - rewrite append_String. simpl. by rewrite IH.
Qed.

Lemma rfind_from_app_last i c s t :
  (0 <= i)%Z -> occurs c t = false ->
  rfind_from i c (s +:+ String c t) = (i + Z.of_nat (String.length s))%Z.
Proof.
  intros Hi Ht. revert i Hi. induction s as [|d s IH]; intros i Hi.
  - simpl. rewrite rfind_from_absent by done. simpl.
    rewrite Ascii.eqb_refl. lia.
  - rewrite append_String. simpl rfind_from. rewrite IH by lia.
    destruct (0 <=? _)%Z eqn:Hk; [simpl String.length; lia|].
    apply Z.leb_gt in Hk. lia.
Qed.

(** Where [rfind] points there is the character, and none after it. *)
Lemma rfind_from_points i c s :
  (0 <= i)%Z -> (0 <= rfind_from i c s)%Z ->
  exists t, drop (Z.to_nat (rfind_from i c s - i)) s = String c t
            /\ occurs c t = false.
Proof.
  revert i. induction s as [|d s IH]; intros i Hi; simpl; [lia|].
  destruct (rfind_from_range (i + 1) c s ltac:(lia)) as [Hn|Hr].
  - rewrite Hn. simpl. destruct (Ascii.eqb d c) eqn:Hd; [|lia].
    intros _. apply Ascii.eqb_eq in Hd. subst d.
    replace (i - i)%Z with 0%Z by lia. simpl.
    exists s. split; [done|]. by apply (rfind_from_none (i + 1)); [lia|].
  - destruct (0 <=? _)%Z eqn:Hk; [|apply Z.leb_gt in Hk; lia].
    intros _. destruct (IH (i + 1)%Z ltac:(lia) ltac:(lia)) as (t & Ht & Ho).
    exists t. split; [|done].
    replace (Z.to_nat (rfind_from (i + 1) c s - i))
      with (S (Z.to_nat (rfind_from (i + 1) c s - (i + 1)))) by lia.
    done.
Qed.

(** Behind an index that lies after the last occurrence there is none. *)
Lemma rfind_from_before i c s n :
  (0 <= i)%Z -> (rfind_from i c s < i + Z.of_nat n)%Z ->
  occurs c (drop n s) = false.
Proof.
  revert i n. induction s as [|d s IH]; intros i n Hi; [by destruct n|].
  simpl rfind_from.
  destruct (rfind_from_range (i + 1) c s ltac:(lia)) as [Hn|Hr].
  - rewrite Hn. simpl.
    pose proof (rfind_from_none (i + 1) c s ltac:(lia) Hn) as Ho.
    destruct (Ascii.eqb d c) eqn:Hd; intros H.
    + destruct n as [|n]; [lia|]. simpl. by apply occurs_drop.
    + destruct n as [|n]; simpl; [by rewrite Hd, Ho | by apply occurs_drop].
  - destruct (0 <=? _)%Z eqn:Hk; [|apply Z.leb_gt in Hk; lia].
    intros H. destruct n as [|n]; [lia|]. simpl.
    apply (IH (i + 1)%Z); lia.
Qed.

(** X16: [os.path.splitext] cuts the path in two: root and extension put
    together give the path back, and the extension is empty or a period
    followed by characters none of which is a period or a slash. *)
Theorem splitext_law p :
  let '(root, ext) := splitext p in
  root +:+ ext = p
  /\ (ext = ""
      \/ exists e, ext = String "." e
                   /\ occurs "." e = false /\ occurs "/" e = false).
Proof.
  unfold splitext, rfind.
  destruct (_ <? _)%Z eqn:Hlt; [|split; [apply append_empty_r | by left]].
  destruct (has_non_dot _); [|split; [apply append_empty_r | by left]].
  apply Z.ltb_lt in Hlt. split; [apply take_drop|]. right.
  assert (Hd : (0 <= rfind_from 0 "." p)%Z).
  { destruct (rfind_from_range 0 "/" p ltac:(lia)); lia. }
  destruct (rfind_from_points 0 "." p ltac:(lia) Hd) as (e & He & Ho).
  rewrite Z.sub_0_r in He. exists e. repeat split; try done.
  assert (Hs : occurs "/" (drop (Z.to_nat (rfind_from 0 "." p)) p) = false).
  { apply (rfind_from_before 0); lia. }
  rewrite He in Hs. simpl in Hs. done.
Qed.

(** An extension appended to a stem whose last component has a character
    other than a period is what [splitext] splits off. *)
Lemma splitext_app stem e :
  occurs "." e = false -> occurs "/" e = false ->
  splitext (stem +:+ String "." e) =
    if has_non_dot (basename stem) then (stem, String "." e)
    else (stem +:+ String "." e, "").
Proof.
  intros Hdot Hsl. unfold splitext, rfind, basename.
  rewrite (rfind_from_app_absent 0 "/") by (simpl; by rewrite Hsl).
  rewrite rfind_from_app_last by (lia || done).
  pose proof (rfind_from_range 0 "/" stem ltac:(lia)) as Hr.
  rewrite (proj2 (Z.ltb_lt _ _)) by lia.
  rewrite Z.add_0_l, Nat2Z.id.
  set (fi := Z.to_nat (rfind_from 0 "/" stem + 1)).
  assert (Hfi : fi <= String.length stem) by lia.
  rewrite drop_app_le by done.
  replace (String.length stem - fi) with (String.length (drop fi stem))
    by (rewrite length_drop; lia).
  by rewrite take_app_length, take_app_length, drop_app_length.
Qed.

Lemma lower_append s t : lower (s +:+ t) = lower s +:+ lower t.
Proof.
  induction s as [|c s IH]; [done|].
  rewrite append_String. simpl. by rewrite IH, append_String.
Qed.

Lemma eqb_lower_char_sep d :
  Ascii.eqb (lower_char d) "/" = Ascii.eqb d "/"
  /\ Ascii.eqb (lower_char d) "." = Ascii.eqb d ".".
Proof. destruct d as [[] [] [] [] [] [] [] []]; split; reflexivity. Qed.

Lemma rfind_from_lower_sep i s :
  rfind_from i "/" (lower s) = rfind_from i "/" s.
Proof.
  revert i. induction s as [|d s IH]; intros i; simpl; [done|].
  by rewrite IH, (proj1 (eqb_lower_char_sep d)).
Qed.

Lemma drop_lower n s : drop n (lower s) = lower (drop n s).
Proof. revert s. induction n as [|n IH]; intros [|c s]; simpl; auto. Qed.

Lemma has_non_dot_lower s : has_non_dot (lower s) = has_non_dot s.
Proof.
  induction s as [|d s IH]; simpl; [done|].
  by rewrite IH, (proj2 (eqb_lower_char_sep d)).
Qed.

Lemma has_non_dot_basename_lower s :
  has_non_dot (basename (lower s)) = has_non_dot (basename s).
Proof.
  unfold basename, rfind. by rewrite rfind_from_lower_sep, drop_lower, has_non_dot_lower.
Qed.

(** X17: A filename that ends in one of the five extensions, in any letter
    case, passes the check, and is never answered with 400, exactly when
    the last component of what precedes the extension has a character
    other than a period.  A file named just [.mp3], or [notes/.wav], has
    no extension at all for the check and is answered with 400. *)
Theorem named_upload_check stem ext cs :
  lower ext ∈ allowed_extensions ->
  let f := {| filename := stem +:+ ext; chunks := cs |} in
  if has_non_dot (basename stem) then
    checked_ext f = lower ext
    /\ forall E l w, status_of (transcribe_audio_file E f l w).1 <> 400%Z
  else
    checked_ext f = ""
    /\ forall E l w, transcribe_audio_file E f l w = (Raise unsupported, w).
Proof.
  intros Hin. cbv zeta.
  assert (He : exists e, lower ext = String "." e
                         /\ occurs "." e = false /\ occurs "/" e = false).
  { unfold allowed_extensions in Hin.
    repeat (apply elem_of_cons in Hin as [->|Hin]; [eexists; by repeat split|]).
    by apply elem_of_nil in Hin. }
  destruct He as (e & He & Hdot & Hsl).
  assert (Hc : checked_ext {| filename := stem +:+ ext; chunks := cs |}
               = if has_non_dot (basename stem) then lower ext else "").
  { unfold checked_ext. simpl filename.
    rewrite lower_append, He, splitext_app, has_non_dot_basename_lower by done.
    by destruct (has_non_dot (basename stem)). }
  destruct (has_non_dot (basename stem)); (split; [done|]); intros E l w.
  - apply transcribe_audio_file_accepted_status.
    rewrite Hc. by apply bool_decide_eq_true_2.
  - apply transcribe_audio_file_rejected. by rewrite Hc.
Qed.

Lemma named_upload_check_witness :
  checked_ext {| filename := "memos/Monday.MP3"; chunks := [] |} = ".mp3"
  /\ checked_ext {| filename := "memos/.mp3"; chunks := [] |} = "".
Proof.
  split.
  - apply (named_upload_check "memos/Monday" ".MP3" []).
    apply (bool_decide_unpack _). vm_compute. exact I.
  - apply (named_upload_check "memos/" ".mp3" []).
    apply (bool_decide_unpack _). vm_compute. exact I.
Defined.

End Extensions.

(* ===================================================================== *)
(** * Conversion, and running a transcription again *)
(* ===================================================================== *)

Section Repetition.
Import Frame PyStr AudioProcessor Endpoints Session Derived.










End Repetition.
